(** * Accuracy_Checker: the summary evaluation loop of [main.py]

    A shallow embedding of the G-Eval style scoring application:
    the prompt template and the metric catalogue, [get_geval_score],
    [evaluate_summaries], the pivot of the resulting frame and the form
    logic that collects the summaries and gates the evaluation.

    Modelling conventions.
    - A Python [str] is a list of Unicode code points ([pystr]).
    - A Python [int] is a [Z].
    - An insertion-ordered [dict] is an association list whose keys are
      pairwise distinct; [dict_set] is item assignment.
    - The completion service is an external collaborator: a program is a
      tree of service calls ([Prog]) that is run against an arbitrary,
      possibly stateful, service ([run]), which logs every exchange.
    - Exceptions are values of [exn]; nothing in [main.py] catches one
      that [evaluate_summaries] raises.
    - What one call can leave behind for the next, the values of the
      module's global names and the list objects on the heap, is the
      [Store].  [Stateful] has the report builder statement by statement
      over it ([Script], run by [exec]); from the module's globals it does
      what the program over values does ([exec_build_report]).
    - [int] follows CPython's grammar for base 10, with the
      interpreter's cap on the number of digits of a literal at its
      default of 4300 ([sys.get_int_max_str_digits]); [main.py] never
      changes it. *)

From Stdlib Require Import List NArith ZArith String Ascii Bool Lia.
From Stdlib Require Import Permutation Sorted.
From Stdlib Require DecimalString DecimalN DecimalPos Finite.
Import ListNotations.

Open Scope N_scope.

(* ================================================================== *)
(** ** Python strings *)

Module PyStr.

Definition char := N.
Definition pystr := list char.

(** A literal: each byte of an ASCII Rocq string is its code point. *)
Fixpoint str (s : string) : pystr :=
  match s with
  | EmptyString => []
  | String a r => N_of_ascii a :: str r
  end.

Definition nl : char := 10.
Definition dquote : char := 34.

(** [sep.join(parts)] *)
Fixpoint join (sep : pystr) (parts : list pystr) : pystr :=
  match parts with
  | [] => []
  | [p] => p
  | p :: ps => p ++ sep ++ join sep ps
  end.

Definition eqb (a b : pystr) : bool :=
  if list_eq_dec N.eq_dec a b then true else false.

Definition pystr_eq_dec : forall a b : pystr, {a = b} + {a <> b} :=
  list_eq_dec N.eq_dec.

(** Truthiness of a string: non-empty. *)
Definition truthy (s : pystr) : bool :=
  match s with [] => false | _ :: _ => true end.

(** [str.isspace] on one code point ([Py_UNICODE_ISSPACE]). *)
Definition isspace (c : char) : bool :=
  ((0x09 <=? c) && (c <=? 0x0d)) ||
  ((0x1c <=? c) && (c <=? 0x20)) ||
  (c =? 0x85) || (c =? 0xa0) || (c =? 0x1680) ||
  ((0x2000 <=? c) && (c <=? 0x200a)) ||
  (c =? 0x2028) || (c =? 0x2029) || (c =? 0x202f) ||
  (c =? 0x205f) || (c =? 0x3000).

Fixpoint dropwhile (p : char -> bool) (s : pystr) : pystr :=
  match s with
  | [] => []
  | c :: r => if p c then dropwhile p r else s
  end.

Definition lstrip (s : pystr) : pystr := dropwhile isspace s.
Definition rstrip (s : pystr) : pystr := rev (dropwhile isspace (rev s)).

(** [s.strip()] *)
Definition strip (s : pystr) : pystr := rstrip (lstrip s).

(** Lexicographic order on code points, the order of [str.__lt__]. *)
Fixpoint leb (a b : pystr) : bool :=
  match a, b with
  | [], _ => true
  | _ :: _, [] => false
  | x :: a', y :: b' =>
      if x <? y then true else if y <? x then false else leb a' b'
  end.

End PyStr.
Export PyStr.

(* ================================================================== *)
(** ** [int(s)] for a string argument, base 10 *)

Module PyInt.

(** The code points whose decimal digit value is 0 (Unicode 14.0,
    category Nd); each is followed by the digits 1 to 9 of its script. *)
Definition decimal_zeros : list N :=
  [0x30; 0x660; 0x6f0; 0x7c0; 0x966; 0x9e6; 0xa66; 0xae6; 0xb66; 0xbe6;
   0xc66; 0xce6; 0xd66; 0xde6; 0xe50; 0xed0; 0xf20; 0x1040; 0x1090;
   0x17e0; 0x1810; 0x1946; 0x19d0; 0x1a80; 0x1a90; 0x1b50; 0x1bb0;
   0x1c40; 0x1c50; 0xa620; 0xa8d0; 0xa900; 0xa9d0; 0xa9f0; 0xaa50;
   0xabf0; 0xff10; 0x104a0; 0x10d30; 0x11066; 0x110f0; 0x11136;
   0x111d0; 0x112f0; 0x11450; 0x114d0; 0x11650; 0x116c0; 0x11730;
   0x118e0; 0x11950; 0x11c50; 0x11d50; 0x11da0; 0x16a60; 0x16ac0;
   0x16b50; 0x1d7ce; 0x1d7d8; 0x1d7e2; 0x1d7ec; 0x1d7f6; 0x1e140;
   0x1e2f0; 0x1e950; 0x1fbf0].

(** [Py_UNICODE_TODECIMAL] *)
Definition todecimal (c : char) : option N :=
  match find (fun z => (z <=? c) && (c <? z + 10)) decimal_zeros with
  | Some z => Some (c - z)
  | None => None
  end.

(** [_PyUnicode_TransformDecimalAndSpaceToASCII]: an ASCII string is
    taken as it is; otherwise spaces become [' '], decimal digits their
    ASCII digit, and the first other character above 126 becomes ['?']
    and ends the buffer. *)
Fixpoint transform_chars (s : pystr) : pystr :=
  match s with
  | [] => []
  | c :: r =>
      if c <? 127 then c :: transform_chars r
      else if isspace c then 0x20 :: transform_chars r
      else match todecimal c with
           | Some d => (0x30 + d) :: transform_chars r
           | None => [0x3f]
           end
  end.

Definition transform_decimal_and_space (s : pystr) : pystr :=
  if forallb (fun c => c <? 128) s then s else transform_chars s.

(** [Py_ISSPACE]: the ASCII white space of the C locale. *)
Definition c_isspace (c : char) : bool :=
  ((0x09 <=? c) && (c <=? 0x0d)) || (c =? 0x20).

Definition is_digit (c : char) : bool := (0x30 <=? c) && (c <=? 0x39).

(** The digit scan of [long_from_string_base]: digits, with single
    underscores between them.  [prev_us] records that the previous
    character was an underscore. *)
Fixpoint scan_digits (s : pystr) (prev_us : bool) (acc : Z)
  : option (Z * pystr) :=
  match s with
  | [] => if prev_us then None else Some (acc, [])
  | c :: r =>
      if is_digit c then
        scan_digits r false (10 * acc + Z.of_N (c - 0x30))%Z
      else if c =? 0x5f then
        if prev_us then None else scan_digits r true acc
      else if prev_us then None else Some (acc, s)
  end.

(** [sys.get_int_max_str_digits()], at its default, and the length
    below which the cap is not looked at
    ([_PY_LONG_MAX_STR_DIGITS_THRESHOLD]). *)
Definition int_max_str_digits : N := 4300.
Definition max_str_digits_threshold : N := 640.

(** The digits that the scan counts: those of the leading run of digits
    and underscores; an underscore is not counted. *)
Fixpoint count_digits (s : pystr) : N :=
  match s with
  | [] => 0
  | c :: r =>
      if is_digit c then 1 + count_digits r
      else if c =? 0x5f then count_digits r
      else 0
  end.

(** [ValueError: Exceeds the limit (4300 digits) for integer string
    conversion]. *)
Definition over_limit (digits : N) : bool :=
  (max_str_digits_threshold <? digits) &&
  (0 <? int_max_str_digits) && (int_max_str_digits <? digits).

(** [PyLong_FromString(s, base=10)]; [None] is [ValueError]. *)
Definition long_from_string (s : pystr) : option Z :=
  let s1 := dropwhile c_isspace s in
  let '(sign, s2) :=
    match s1 with
    | c :: r =>
        if c =? 0x2b then (1%Z, r)
        else if c =? 0x2d then ((-1)%Z, r)
        else (1%Z, s1)
    | [] => (1%Z, s1)
    end in
  match s2 with
  | [] => None
  | c :: _ =>
      if is_digit c then
        match scan_digits s2 false 0%Z with
        | Some (v, rest) =>
            if over_limit (count_digits s2) then None
            else
              match dropwhile c_isspace rest with
              | [] => Some (sign * v)%Z
              | _ :: _ => None
              end
        | None => None
        end
      else None
  end.

(** [int(s)]; [None] is [ValueError]: an invalid literal for [int()],
    or one with more digits than the limit. *)
Definition int (s : pystr) : option Z :=
  long_from_string (transform_decimal_and_space s).

End PyInt.
Export PyInt.

(* ================================================================== *)
(** ** Exceptions and dictionaries *)

Inductive exn : Type :=
| ValueError_int            (* int(): invalid literal *)
| AttributeError_strip      (* None has no attribute strip *)
| ValueError_format         (* str.format: malformed replacement field *)
| KeyError_format (key : pystr)  (* str.format: no such keyword *)
| FormatNotModelled         (* positional field, conversion, spec, access *)
| ValueError_frame          (* DataFrame: arrays of unequal length *)
| ValueError_pivot          (* pivot: duplicate (index, columns) entry *)
| ServiceError (code : N).  (* raised by the completion client *)

Module Dict.

(** An insertion-ordered dictionary with string keys. *)
Definition dict (V : Type) := list (pystr * V).

Definition keys {V} (d : dict V) : list pystr := map fst d.
Definition values {V} (d : dict V) : list V := map snd d.
Definition items {V} (d : dict V) : list (pystr * V) := d.

Fixpoint get {V} (d : dict V) (k : pystr) : option V :=
  match d with
  | [] => None
  | (k', v) :: r => if PyStr.eqb k' k then Some v else get r k
  end.

(** [d[k] = v]: an existing key keeps its place, a new one goes last. *)
Fixpoint dict_set {V} (d : dict V) (k : pystr) (v : V) : dict V :=
  match d with
  | [] => [(k, v)]
  | (k', v') :: r =>
      if PyStr.eqb k' k then (k', v) :: r else (k', v') :: dict_set r k v
  end.

(** The invariant of a dictionary: no key occurs twice. *)
Definition wf {V} (d : dict V) : Prop := NoDup (keys d).

End Dict.
Export Dict.

(* ================================================================== *)
(** ** [str.format] with keyword arguments *)

Module Format.

Inductive fmode : Type :=
| Literal
| Field (name_rev : pystr).

Definition lbrace : char := 0x7b.
Definition rbrace : char := 0x7d.

(** The object a replacement field names.  Only plain keyword names are
    modelled, which is all the template of this program uses. *)
Definition get_field (kwargs : dict pystr) (name : pystr) : exn + pystr :=
  if forallb
       (fun c => match todecimal c with Some _ => true | None => false end)
       name
  then inl FormatNotModelled
  else if existsb (fun c => c =? 0x2e) name then inl FormatNotModelled
  else match get kwargs name with
       | Some v => inr v
       | None => inl (KeyError_format name)
       end.

Definition emit (c : char) (r : exn + pystr) : exn + pystr :=
  match r with inl e => inl e | inr s => inr (c :: s) end.

Definition emit_str (v : pystr) (r : exn + pystr) : exn + pystr :=
  match r with inl e => inl e | inr s => inr (v ++ s) end.

(** The markup iterator of [str.format], left to right: literal text
    with doubled braces as escapes, and replacement fields. *)
Fixpoint format_from (kwargs : dict pystr) (t : pystr) (m : fmode)
  : exn + pystr :=
  match t with
  | [] =>
      match m with
      | Literal => inr []
      | Field _ => inl ValueError_format
      end
  | c :: r =>
      match m with
      | Literal =>
          if c =? lbrace then
            match r with
            | [] => inl ValueError_format
            | c' :: r' =>
                if c' =? lbrace then emit lbrace (format_from kwargs r' Literal)
                else format_from kwargs r (Field [])
            end
          else if c =? rbrace then
            match r with
            | [] => inl ValueError_format
            | c' :: r' =>
                if c' =? rbrace then emit rbrace (format_from kwargs r' Literal)
                else inl ValueError_format
            end
          else emit c (format_from kwargs r Literal)
      | Field acc =>
          if c =? rbrace then
            match get_field kwargs (rev acc) with
            | inl e => inl e
            | inr v => emit_str v (format_from kwargs r Literal)
            end
          else if c =? lbrace then inl ValueError_format
          else if (c =? 0x5b) || (c =? 0x3a) || (c =? 0x21)
               then inl FormatNotModelled
          else format_from kwargs r (Field (c :: acc))
      end
  end.

(** [template.format(k1=v1, ...)], the keywords given as a dictionary *)
Definition format (template : pystr) (kwargs : dict pystr) : exn + pystr :=
  format_from kwargs template Literal.

End Format.
Export Format.

(* ================================================================== *)
(** ** The prompt template and the metric catalogue *)

Definition EVALUATION_PROMPT_TEMPLATE : pystr :=
  join [nl]
    [ [];
      str "You will be given one summary written for an article. Your task is to rate the summary on one metric.";
      str "Please make sure you read and understand these instructions very carefully. ";
      str "Please keep this document open while reviewing, and refer to it as needed.";
      [];
      str "Evaluation Criteria:";
      [];
      str "{criteria}";
      [];
      str "Evaluation Steps:";
      [];
      str "{steps}";
      [];
      str "Example:";
      [];
      str "Source Text:";
      [];
      str "{document}";
      [];
      str "Summary:";
      [];
      str "{summary}";
      [];
      str "Evaluation Form (scores ONLY):";
      [];
      str "- {metric_name}";
      [] ].

Record MetricInfo : Type := {
  criteria : pystr;
  steps : pystr
}.

Definition Relevance_criteria : pystr :=
  str "Relevance(1-5) - selection of important content from the source. "
  ++ str "The summary should include only important information from the source document. "
  ++ str "Annotators were instructed to penalize summaries which contained redundancies and excess information.".

Definition Relevance_steps : pystr :=
  join [nl]
    [ str "1. Read the summary and the source document carefully.";
      str "2. Compare the summary to the source document and identify the main points of the article.";
      str "3. Assess how well the summary covers the main points of the article, and how much irrelevant or redundant information it contains.";
      str "4. Assign a relevance score from 1 to 5." ].

Definition Coherence_criteria : pystr :=
  str "Coherence(1-5) - the collective quality of all sentences. "
  ++ str "We align this dimension with the DUC quality question of structure and coherence "
  ++ str "whereby " ++ [dquote] ++ str "the summary should be well-structured and well-organized. "
  ++ str "The summary should not just be a heap of related information, but should build from sentence to a "
  ++ str "coherent body of information about a topic." ++ [dquote].

Definition Coherence_steps : pystr :=
  join [nl]
    [ str "1. Read the article carefully and identify the main topic and key points.";
      str "2. Read the summary and compare it to the article. Check if the summary covers the main topic and key points of the article,";
      str "and if it presents them in a clear and logical order.";
      str "3. Assign a score for coherence on a scale of 1 to 5, where 1 is the lowest and 5 is the highest based on the Evaluation Criteria." ].

Definition Consistency_criteria : pystr :=
  str "Consistency(1-5) - the factual alignment between the summary and the summarized source. "
  ++ str "A factually consistent summary contains only statements that are entailed by the source document. "
  ++ str "Annotators were also asked to penalize summaries that contained hallucinated facts.".

Definition Consistency_steps : pystr :=
  join [nl]
    [ str "1. Read the article carefully and identify the main facts and details it presents.";
      str "2. Read the summary and compare it to the article. Check if the summary contains any factual errors that are not supported by the article.";
      str "3. Assign a score for consistency based on the Evaluation Criteria." ].

Definition Fluency_criteria : pystr :=
  join [nl]
    [ str "Fluency(1-3): the quality of the summary in terms of grammar, spelling, punctuation, word choice, and sentence structure.";
      str "1: Poor. The summary has many errors that make it hard to understand or sound unnatural.";
      str "2: Fair. The summary has some errors that affect the clarity or smoothness of the text, but the main points are still comprehensible.";
      str "3: Good. The summary has few or no errors and is easy to read and follow." ].

Definition Fluency_steps : pystr :=
  str "Read the summary and evaluate its fluency based on the given criteria. Assign a fluency score from 1 to 3.".

Definition METRICS : dict MetricInfo :=
  [ (str "Relevance",
      {| criteria := Relevance_criteria; steps := Relevance_steps |});
    (str "Coherence",
      {| criteria := Coherence_criteria; steps := Coherence_steps |});
    (str "Consistency",
      {| criteria := Consistency_criteria; steps := Consistency_steps |});
    (str "Fluency",
      {| criteria := Fluency_criteria; steps := Fluency_steps |}) ].

(* ================================================================== *)
(** ** Programs that call the completion service *)

Record Message : Type := {
  role : pystr;
  content : pystr
}.

(** The keyword arguments of [client.chat.completions.create]. *)
Record Request : Type := {
  model : pystr;
  messages : list Message;
  temperature : Z;
  max_tokens : Z;
  top_p : Z;
  frequency_penalty : Z;
  presence_penalty : Z
}.

(** What a call yields: an exception, or the [content] of the first
    choice's message, which may be [None]. *)
Definition Reply : Type := (exn + option pystr)%type.

Definition Exchange : Type := (Request * Reply)%type.

(** A computation that may raise and may call the service. *)
Inductive Prog (A : Type) : Type :=
| Ret (a : A)
| Raise (e : exn)
| Create (req : Request) (k : option pystr -> Prog A).

Arguments Ret {A} a.
Arguments Raise {A} e.
Arguments Create {A} req k.

Fixpoint bind {A B} (p : Prog A) (f : A -> Prog B) : Prog B :=
  match p with
  | Ret a => f a
  | Raise e => Raise e
  | Create req k => Create req (fun r => bind (k r) f)
  end.

Notation "x <- p ;; q" := (bind p (fun x => q))
  (at level 61, p at next level, right associativity).

Definition lift {A} (r : exn + A) : Prog A :=
  match r with inl e => Raise e | inr a => Ret a end.

(** A [for] loop whose body updates the loop's state. *)
Fixpoint for_each {X St} (xs : list X) (st : St)
    (body : X -> St -> Prog St) : Prog St :=
  match xs with
  | [] => Ret st
  | x :: xs' => st' <- body x st ;; for_each xs' st' body
  end.

(** A completion service with internal state [S]. *)
Definition Service (S : Type) : Type := S -> Request -> S * Reply.

(** Running a program against a service: the final service state, the
    exchanges in the order they happened, and the outcome. *)
Fixpoint run {S A} (svc : Service S) (p : Prog A) (s : S)
  : S * list Exchange * (exn + A) :=
  match p with
  | Ret a => (s, [], inr a)
  | Raise e => (s, [], inl e)
  | Create req k =>
      let '(s', reply) := svc s req in
      match reply with
      | inl e => (s', [(req, reply)], inl e)
      | inr c =>
          let '(s'', log, out) := run svc (k c) s' in
          (s'', (req, reply) :: log, out)
      end
  end.

Definition final_state {S A} (r : S * list Exchange * (exn + A)) : S :=
  fst (fst r).
Definition exchanges {S A} (r : S * list Exchange * (exn + A))
  : list Exchange := snd (fst r).
Definition outcome {S A} (r : S * list Exchange * (exn + A)) : exn + A :=
  snd r.

(** A stub that answers from the request alone. *)
Definition stub (f : Request -> Reply) : Service unit :=
  fun _ req => (tt, f req).

(* ================================================================== *)
(** ** The scorer *)

Definition make_prompt (criteria steps document summary metric_name : pystr)
  : exn + pystr :=
  format EVALUATION_PROMPT_TEMPLATE
    [ (str "criteria", criteria);
      (str "steps", steps);
      (str "metric_name", metric_name);
      (str "document", document);
      (str "summary", summary) ].

Definition make_request (prompt : pystr) : Request :=
  {| model := str "gpt-4o-mini";
     messages := [ {| role := str "user"; content := prompt |} ];
     temperature := 0;
     max_tokens := 5;
     top_p := 1;
     frequency_penalty := 0;
     presence_penalty := 0 |}.

Definition get_geval_score
    (criteria steps document summary metric_name : pystr)
  : Prog (option pystr) :=
  prompt <- lift (make_prompt criteria steps document summary metric_name) ;;
  Create (make_request prompt) (fun response => Ret response).

(** [int(result.strip())] *)
Definition parse_score (result : option pystr) : exn + Z :=
  match result with
  | None => inl AttributeError_strip
  | Some text =>
      match int (strip text) with
      | Some n => inr n
      | None => inl ValueError_int
      end
  end.

(* ================================================================== *)
(** ** The report builder *)

(** The dictionary [data] of three lists. *)
Record Data : Type := {
  Evaluation_Type : list pystr;
  Summary_Type : list pystr;
  Score : list Z
}.

Definition empty_data : Data :=
  {| Evaluation_Type := []; Summary_Type := []; Score := [] |}.

Definition append_Evaluation_Type (d : Data) (x : pystr) : Data :=
  {| Evaluation_Type := Evaluation_Type d ++ [x];
     Summary_Type := Summary_Type d;
     Score := Score d |}.

Definition append_Summary_Type (d : Data) (x : pystr) : Data :=
  {| Evaluation_Type := Evaluation_Type d;
     Summary_Type := Summary_Type d ++ [x];
     Score := Score d |}.

Definition append_Score (d : Data) (x : Z) : Data :=
  {| Evaluation_Type := Evaluation_Type d;
     Summary_Type := Summary_Type d;
     Score := Score d ++ [x] |}.

(** One row of the long frame. *)
Record Row : Type := {
  row_metric : pystr;
  row_summary : pystr;
  row_score : Z
}.

(** [pd.DataFrame(data)]: the three columns must have one length. *)
Definition DataFrame (d : Data) : exn + list Row :=
  if (List.length (Evaluation_Type d) =? List.length (Summary_Type d))%nat
     && (List.length (Summary_Type d) =? List.length (Score d))%nat
  then inr (map (fun '(m, l, v) =>
                   {| row_metric := m; row_summary := l; row_score := v |})
              (combine (combine (Evaluation_Type d) (Summary_Type d))
                 (Score d)))
  else inl ValueError_frame.

Definition evaluate_summaries (source_text : pystr) (summaries : dict pystr)
  : Prog (list Row) :=
  data <-
    for_each (items METRICS) empty_data (fun '(eval_type, metric_info) data =>
      for_each (items summaries) data (fun '(summ_type, summary) data =>
        let data := append_Evaluation_Type data eval_type in
        let data := append_Summary_Type data summ_type in
        result <- get_geval_score (criteria metric_info) (steps metric_info)
                    source_text summary eval_type ;;
        score_num <- lift (parse_score result) ;;
        Ret (append_Score data score_num))) ;;
  lift (DataFrame data).

(* ================================================================== *)
(** ** The pivot table *)

Fixpoint insert_sorted (x : pystr) (l : list pystr) : list pystr :=
  match l with
  | [] => [x]
  | y :: r => if PyStr.leb x y then x :: l else y :: insert_sorted x r
  end.

Fixpoint sorted (l : list pystr) : list pystr :=
  match l with
  | [] => []
  | x :: r => insert_sorted x (sorted r)
  end.

(** The distinct labels of an axis, in increasing order. *)
Definition axis (l : list pystr) : list pystr :=
  sorted (nodup pystr_eq_dec l).

Definition key_eqb (a b : pystr * pystr) : bool :=
  PyStr.eqb (fst a) (fst b) && PyStr.eqb (snd a) (snd b).

Fixpoint has_duplicate (l : list (pystr * pystr)) : bool :=
  match l with
  | [] => false
  | k :: r => existsb (key_eqb k) r || has_duplicate r
  end.

Definition row_key (r : Row) : pystr * pystr := (row_metric r, row_summary r).

(** The score at (metric, summary); [None] is pandas' missing value. *)
Definition cell_of (rows : list Row) (m l : pystr) : option Z :=
  match find (fun r => key_eqb (row_key r) (m, l)) rows with
  | Some r => Some (row_score r)
  | None => None
  end.

Record Pivot : Type := {
  index : list pystr;
  columns : list pystr;
  cells : list (list (option Z))
}.

(** [df.pivot(index="Evaluation Type", columns="Summary Type",
    values="Score")]: one row per distinct metric, one column per
    distinct summary label, both ordered by label; a repeated
    (metric, label) pair cannot be reshaped. *)
Definition pivot (rows : list Row) : exn + Pivot :=
  if has_duplicate (map row_key rows) then inl ValueError_pivot
  else
    let idx := axis (map row_metric rows) in
    let cols := axis (map row_summary rows) in
    inr {| index := idx;
           columns := cols;
           cells := map (fun m => map (fun l => cell_of rows m l) cols) idx |}.

(** The cell of a pivot table at given labels ([pivot_df.loc[m, l]]). *)
Definition lookup_cell (p : Pivot) (m l : pystr) : option Z :=
  match find (fun '(m', _) => PyStr.eqb m' m)
          (combine (index p) (cells p)) with
  | Some (_, line) =>
      match find (fun '(l', _) => PyStr.eqb l' l)
              (combine (columns p) line) with
      | Some (_, v) => v
      | None => None
      end
  | None => None
  end.

(** The report builder of the application: the evaluation followed by
    the pivot, as the results branch of the page runs them. *)
Definition build_report (source_text : pystr) (summaries : dict pystr)
  : Prog Pivot :=
  results_df <- evaluate_summaries source_text summaries ;;
  lift (pivot results_df).

(* ================================================================== *)
(** ** The form *)

(** [str(n)] for a non-negative integer. *)
Definition str_of_N (n : N) : pystr :=
  str (DecimalString.NilZero.string_of_uint (N.to_uint n)).

(** The key [f"Summary {i+1}"]. *)
Definition summary_label (i : nat) : pystr :=
  str "Summary " ++ str_of_N (N.of_nat i + 1).

(** The loop over the summary text areas; [texts] holds what the areas
    [i], [i+1], ... return. *)
Fixpoint collect_from (i : nat) (texts : list pystr) (summaries : dict pystr)
  : dict pystr :=
  match texts with
  | [] => summaries
  | summary :: rest =>
      collect_from (S i) rest
        (if truthy summary
         then dict_set summaries (summary_label i) summary
         else summaries)
  end.

Definition collect_summaries (texts : list pystr) : dict pystr :=
  collect_from 0 texts [].

(** The condition of the [if] that guards the evaluation. *)
Definition gate (button : bool) (source_text : pystr)
    (summaries : dict pystr) : bool :=
  button && truthy source_text && forallb truthy (values summaries).

Inductive Page : Type :=
| ResultsPage (report : Prog Pivot)
| InfoPage (message : pystr).

Definition info_message : pystr :=
  str "Please enter the source text and at least one summary to begin evaluation.".

(** One run of the script: the widgets' values in, the page out. *)
Definition page (button : bool) (source_text : pystr) (texts : list pystr)
  : Page :=
  let summaries := collect_summaries texts in
  if gate button source_text summaries
  then ResultsPage (build_report source_text summaries)
  else InfoPage info_message.

(* ================================================================== *)
(** ** The detailed scores *)

(** What the page shows in its detailed part. *)
Inductive Element : Type :=
| Write (text : pystr)
| BarChart (data : list (pystr * option Z))
| Expander (label : pystr) (body : list pystr).

Inductive LookupError : Type :=
| KeyError_loc (label : pystr)      (* pivot_df.loc[label] *)
| KeyError_metric (name : pystr).   (* METRICS[name] *)

(** [pivot_df.loc[label]]: the row of that label, cell by cell under
    the labels of the columns. *)
Definition loc (p : Pivot) (label : pystr)
  : LookupError + list (pystr * option Z) :=
  match find (fun '(m', _) => PyStr.eqb m' label)
          (combine (index p) (cells p)) with
  | Some (_, line) => inr (combine (columns p) line)
  | None => inl (KeyError_loc label)
  end.

(** The loop over [METRICS.keys()] under "Detailed Scores": what it has
    shown, and the exception that ended it, if one did. *)
Fixpoint detail_loop (p : Pivot) (eval_types : list pystr)
  : list Element * option LookupError :=
  match eval_types with
  | [] => ([], None)
  | eval_type :: rest =>
      let title := Write (str "**" ++ eval_type ++ str "**") in
      match loc p eval_type with
      | inl e => ([title], Some e)
      | inr type_scores =>
          let label := str "View " ++ eval_type ++ str " Criteria" in
          match get METRICS eval_type with
          | None =>
              ([title; BarChart type_scores; Expander label []],
               Some (KeyError_metric eval_type))
          | Some metric_info =>
              let '(shown, err) := detail_loop p rest in
              (title :: BarChart type_scores
                 :: Expander label [criteria metric_info] :: shown,
               err)
          end
      end
  end.

Definition detailed_scores (p : Pivot) : list Element * option LookupError :=
  detail_loop p (keys METRICS).

(* ================================================================== *)
(** ** The interpreter's store *)

(** What one call can leave behind for the next: the values bound to the
    module's global names, and the list objects on the heap.  A list
    object is known by its address, its position on the heap. *)
Record Store : Type := {
  global_TEMPLATE : pystr;
  global_METRICS : dict MetricInfo;
  str_lists : list (list pystr);
  int_lists : list (list Z)
}.

(** The store when the module's top-level assignments have run. *)
Definition module_store : Store :=
  {| global_TEMPLATE := EVALUATION_PROMPT_TEMPLATE;
     global_METRICS := METRICS;
     str_lists := [];
     int_lists := [] |}.

(** The global names are bound to what the module bound them to. *)
Definition module_globals (st : Store) : Prop :=
  global_TEMPLATE st = EVALUATION_PROMPT_TEMPLATE /\
  global_METRICS st = METRICS.

(** [l.append(x)] on the list at address [a].  A script that uses only
    addresses of lists that were made finds a list there; at any other
    address the heap is left as it is, and [nth] reads the empty list. *)
Fixpoint append_at {X} (a : nat) (x : X) (heap : list (list X))
  {struct heap} : list (list X) :=
  match heap, a with
  | [], _ => []
  | l :: h, O => (l ++ [x]) :: h
  | l :: h, Datatypes.S a' => l :: append_at a' x h
  end.

(** What a statement can do besides computing: call the service, read
    or assign a global name, make a list, append to one, read one. *)
Inductive Op : Type -> Type :=
| create (req : Request) : Op (option pystr)
| load_TEMPLATE : Op pystr
| store_TEMPLATE (v : pystr) : Op unit
| load_METRICS : Op (dict MetricInfo)
| store_METRICS (v : dict MetricInfo) : Op unit
| new_strs : Op nat
| new_ints : Op nat
| append_str (a : nat) (x : pystr) : Op unit
| append_int (a : nat) (x : Z) : Op unit
| get_strs (a : nat) : Op (list pystr)
| get_ints (a : nat) : Op (list Z).

(** A computation over the store and the service. *)
Inductive Script (A : Type) : Type :=
| Done (a : A)
| Throw (e : exn)
| Do {X : Type} (op : Op X) (k : X -> Script A).

Arguments Done {A} a.
Arguments Throw {A} e.
Arguments Do {A X} op k.

Fixpoint then_ {A B} (p : Script A) (f : A -> Script B) : Script B :=
  match p with
  | Done a => f a
  | Throw e => Throw e
  | Do op k => Do op (fun x => then_ (k x) f)
  end.

Notation "x <~ p ;; q" := (then_ p (fun x => q))
  (at level 61, p at next level, right associativity).

Definition call {X} (op : Op X) : Script X := Do op Done.

Definition lift_s {A} (r : exn + A) : Script A :=
  match r with inl e => Throw e | inr a => Done a end.

(** A [for] loop whose body works on the store. *)
Fixpoint for_each_s {X} (xs : list X) (body : X -> Script unit)
  : Script unit :=
  match xs with
  | [] => Done tt
  | x :: xs' => _ <~ body x ;; for_each_s xs' body
  end.

(** One operation: the store and the service state after it, the
    exchange it made, if it made one, and what it gave. *)
Definition do_op {S X} (svc : Service S) (op : Op X) (st : Store) (s : S)
  : Store * S * list Exchange * (exn + X) :=
  match op in Op X return Store * S * list Exchange * (exn + X) with
  | create req =>
      let '(s', reply) := svc s req in (st, s', [(req, reply)], reply)
  | load_TEMPLATE => (st, s, [], inr (global_TEMPLATE st))
  | store_TEMPLATE v =>
      ({| global_TEMPLATE := v;
          global_METRICS := global_METRICS st;
          str_lists := str_lists st;
          int_lists := int_lists st |}, s, [], inr tt)
  | load_METRICS => (st, s, [], inr (global_METRICS st))
  | store_METRICS v =>
      ({| global_TEMPLATE := global_TEMPLATE st;
          global_METRICS := v;
          str_lists := str_lists st;
          int_lists := int_lists st |}, s, [], inr tt)
  | new_strs =>
      ({| global_TEMPLATE := global_TEMPLATE st;
          global_METRICS := global_METRICS st;
          str_lists := str_lists st ++ [[]];
          int_lists := int_lists st |}, s, [],
       inr (List.length (str_lists st)))
  | new_ints =>
      ({| global_TEMPLATE := global_TEMPLATE st;
          global_METRICS := global_METRICS st;
          str_lists := str_lists st;
          int_lists := int_lists st ++ [[]] |}, s, [],
       inr (List.length (int_lists st)))
  | append_str a x =>
      ({| global_TEMPLATE := global_TEMPLATE st;
          global_METRICS := global_METRICS st;
          str_lists := append_at a x (str_lists st);
          int_lists := int_lists st |}, s, [], inr tt)
  | append_int a x =>
      ({| global_TEMPLATE := global_TEMPLATE st;
          global_METRICS := global_METRICS st;
          str_lists := str_lists st;
          int_lists := append_at a x (int_lists st) |}, s, [], inr tt)
  | get_strs a => (st, s, [], inr (nth a (str_lists st) []))
  | get_ints a => (st, s, [], inr (nth a (int_lists st) []))
  end.

(** Running a script from a store and a service state: the store and the
    service state it leaves, the exchanges in order, and the outcome. *)
Fixpoint exec {S A} (svc : Service S) (p : Script A) (st : Store) (s : S)
  : Store * S * list Exchange * (exn + A) :=
  match p with
  | Done a => (st, s, [], inr a)
  | Throw e => (st, s, [], inl e)
  | Do op k =>
      let '(st', s', log, r) := do_op svc op st s in
      match r with
      | inl e => (st', s', log, inl e)
      | inr x =>
          let '(st'', s'', log', out) := exec svc (k x) st' s' in
          (st'', s'', log ++ log', out)
      end
  end.

Definition left_store {S A} (r : Store * S * list Exchange * (exn + A))
  : Store := fst (fst (fst r)).
Definition left_state {S A} (r : Store * S * list Exchange * (exn + A))
  : S := snd (fst (fst r)).
Definition observed {S A} (r : Store * S * list Exchange * (exn + A))
  : S * list Exchange * (exn + A) :=
  (snd (fst (fst r)), snd (fst r), snd r).

(* ================================================================== *)
(** ** The report builder over the store *)

(** [get_geval_score], [evaluate_summaries] and the report builder once
    more, statement by statement over the store: the global names are
    looked up when they are used, and the lists of [data] are objects
    made by the call and appended to in place. *)
Module Stateful.

Definition get_geval_score
    (criteria steps document summary metric_name : pystr)
  : Script (option pystr) :=
  template <~ call load_TEMPLATE ;;
  prompt <~ lift_s (format template
                      [ (str "criteria", criteria);
                        (str "steps", steps);
                        (str "metric_name", metric_name);
                        (str "document", document);
                        (str "summary", summary) ]) ;;
  call (create (make_request prompt)).

(** [evaluation_type], [summary_type] and [score] are the addresses of
    the three lists of [data]. *)
Definition evaluate_summaries (source_text : pystr) (summaries : dict pystr)
  : Script (list Row) :=
  evaluation_type <~ call new_strs ;;
  summary_type <~ call new_strs ;;
  score <~ call new_ints ;;
  metrics <~ call load_METRICS ;;
  _ <~ for_each_s (items metrics) (fun '(eval_type, metric_info) =>
         for_each_s (items summaries) (fun '(summ_type, summary) =>
           _ <~ call (append_str evaluation_type eval_type) ;;
           _ <~ call (append_str summary_type summ_type) ;;
           result <~ get_geval_score (criteria metric_info)
                       (steps metric_info) source_text summary eval_type ;;
           score_num <~ lift_s (parse_score result) ;;
           call (append_int score score_num))) ;;
  c1 <~ call (get_strs evaluation_type) ;;
  c2 <~ call (get_strs summary_type) ;;
  c3 <~ call (get_ints score) ;;
  lift_s (DataFrame {| Evaluation_Type := c1;
                       Summary_Type := c2;
                       Score := c3 |}).

Definition build_report (source_text : pystr) (summaries : dict pystr)
  : Script Pivot :=
  results_df <~ evaluate_summaries source_text summaries ;;
  lift_s (pivot results_df).

End Stateful.

(* ================================================================== *)
(** * Vocabulary of the properties *)

(** The text of the prompt, line by line; the five values stand where
    the template has their fields. *)
Definition prompt_text (criteria steps document summary metric_name : pystr)
  : pystr :=
  join [nl]
    [ [];
      str "You will be given one summary written for an article. Your task is to rate the summary on one metric.";
      str "Please make sure you read and understand these instructions very carefully. ";
      str "Please keep this document open while reviewing, and refer to it as needed.";
      [];
      str "Evaluation Criteria:";
      [];
      criteria;
      [];
      str "Evaluation Steps:";
      [];
      steps;
      [];
      str "Example:";
      [];
      str "Source Text:";
      [];
      document;
      [];
      str "Summary:";
      [];
      summary;
      [];
      str "Evaluation Form (scores ONLY):";
      [];
      str "- " ++ metric_name;
      [] ].

(** One unit of work of the evaluation: a metric and a summary. *)
Definition Job : Type := ((pystr * MetricInfo) * (pystr * pystr))%type.

Definition job_metric (j : Job) : pystr := fst (fst j).
Definition job_label (j : Job) : pystr := fst (snd j).
Definition job_key (j : Job) : pystr * pystr := (job_metric j, job_label j).

(** The request that scores one job. *)
Definition job_request (source_text : pystr) (j : Job) : Request :=
  make_request
    (prompt_text (criteria (snd (fst j))) (steps (snd (fst j)))
       source_text (snd (snd j)) (job_metric j)).

(** The jobs of a run, metric by metric and, within a metric, summary
    by summary. *)
Definition jobs (summaries : dict pystr) : list Job :=
  list_prod (items METRICS) (items summaries).

(** The body of the inner loop, for one job. *)
Definition score_job (source_text : pystr) (j : Job) (data : Data)
  : Prog Data :=
  let data := append_Evaluation_Type data (job_metric j) in
  let data := append_Summary_Type data (job_label j) in
  result <- get_geval_score (criteria (snd (fst j))) (steps (snd (fst j)))
              source_text (snd (snd j)) (job_metric j) ;;
  score_num <- lift (parse_score result) ;;
  Ret (append_Score data score_num).

(** The frame-building loop of [evaluate_summaries], as one loop. *)
Definition score_all (source_text : pystr) (js : list Job) (data : Data)
  : Prog Data :=
  for_each js data (score_job source_text).

(** An exchange whose reply parses to the score [v]. *)
Definition scored (ex : Exchange) (v : Z) : Prop :=
  exists c, snd ex = inr c /\ parse_score c = inr v.

(** The rows that jobs and their scores make. *)
Definition rows_of (js : list Job) (vs : list Z) : list Row :=
  map (fun '(j, v) =>
         {| row_metric := job_metric j;
            row_summary := job_label j;
            row_score := v |})
    (combine js vs).

Fixpoint nodupb (l : list pystr) : bool :=
  match l with
  | [] => true
  | x :: r => negb (existsb (PyStr.eqb x) r) && nodupb r
  end.

(** A service whose replies do not depend on its state. *)
Definition deterministic {S} (svc : Service S) : Prop :=
  forall s1 s2 req, snd (svc s1 req) = snd (svc s2 req).

Definition cat_document : pystr := str "The cat sat on the mat.".

Definition cat_summaries : dict pystr :=
  [ (str "Summary 1", str "A cat sat.");
    (str "Summary 2", str "A dog ran.") ].

(** A stub that gives one answer to every call. *)
Definition always (text : pystr) : Service unit :=
  stub (fun _ => inr (Some text)).

(** A stateful stub: the [n]th call is answered with [n] and a newline. *)
Definition numbering : Service N :=
  fun n _ => (n + 1, inr (Some (str_of_N (n + 1) ++ [nl]))).

(** A stateful stub that answers ["5"] three times and then ["N/A"]. *)
Definition fourth_fails : Service N :=
  fun n _ =>
    (n + 1, inr (Some (if n <? 3 then str "5" else str "N/A"))).

Definition numbered_report : Pivot :=
  {| index := [str "Coherence"; str "Consistency"; str "Fluency";
               str "Relevance"];
     columns := [str "Summary 1"; str "Summary 2"];
     cells := [ [Some 3; Some 4]; [Some 5; Some 6]; [Some 7; Some 8];
                [Some 1; Some 2] ]%Z |}.

(** A service that keeps count of its calls, but answers ["4"] always. *)
Definition counting_4 : Service N :=
  fun n _ => (n + 1, inr (Some (str "4"))).

Definition all_7_report : Pivot :=
  {| index := [str "Coherence"; str "Consistency"; str "Fluency";
               str "Relevance"];
     columns := [str "Summary 1"; str "Summary 2"];
     cells := [ [Some 7; Some 7]; [Some 7; Some 7]; [Some 7; Some 7];
                [Some 7; Some 7] ]%Z |}.

Inductive Sign : Type := NoSign | Plus | Minus.

Definition sign_text (sg : Sign) : pystr :=
  match sg with NoSign => [] | Plus => [0x2b] | Minus => [0x2d] end.

Definition sign_factor (sg : Sign) : Z :=
  match sg with Minus => (-1)%Z | _ => 1%Z end.

(** The character of a digit and the number a digit sequence denotes. *)
Definition digit_char (d : N) : char := 0x30 + d.

Definition decimal_value (ds : list N) : Z :=
  fold_left (fun acc d => (10 * acc + Z.of_N d)%Z) ds 0%Z.

(** A run of nines. *)
Definition nines (n : nat) : list N := repeat 9 n.

(** The text of a decimal integer: an optional sign and digits. *)
Definition decimal_text (sg : Sign) (ds : list N) : pystr :=
  sign_text sg ++ map digit_char ds.

(** The digits of a number, as [PyLong_FromString] reads them once
    white space and sign are behind. *)
Definition read_digits (sign : Z) (s : pystr) : option Z :=
  match s with
  | [] => None
  | c :: _ =>
      if is_digit c then
        match scan_digits s false 0%Z with
        | Some (v, rest) =>
            if over_limit (count_digits s) then None
            else
              match dropwhile c_isspace rest with
              | [] => Some (sign * v)%Z
              | _ :: _ => None
              end
        | None => None
        end
      else None
  end.

(** The non-blank texts with the labels of their areas, from area [i]. *)
Fixpoint nonblank_from (i : nat) (texts : list pystr) : dict pystr :=
  match texts with
  | [] => []
  | t :: rest =>
      if truthy t then (summary_label i, t) :: nonblank_from (S i) rest
      else nonblank_from (S i) rest
  end.

(** ** Vocabulary of the further properties *)

(** The characters that can occur in a text [PyLong_FromString] accepts
    in base 10. *)
Definition score_char (c : char) : bool :=
  is_digit c || c_isspace c || (c =? 0x2b) || (c =? 0x2d) || (c =? 0x5f).

(** A stub that answers ["5"], except that its third reply has no
    content. *)
Definition third_is_none : Service N :=
  fun n _ => (n + 1, inr (if n =? 2 then None else Some (str "5"))).

(** The fixed parts of the prompt, between the five values. *)
Definition prompt_head : pystr :=
  [nl]
  ++ str "You will be given one summary written for an article. Your task is to rate the summary on one metric." ++ [nl]
  ++ str "Please make sure you read and understand these instructions very carefully. " ++ [nl]
  ++ str "Please keep this document open while reviewing, and refer to it as needed." ++ [nl]
  ++ [nl] ++ str "Evaluation Criteria:" ++ [nl; nl].

Definition steps_heading : pystr :=
  [nl; nl] ++ str "Evaluation Steps:" ++ [nl; nl].

Definition source_heading : pystr :=
  [nl; nl] ++ str "Example:" ++ [nl; nl] ++ str "Source Text:" ++ [nl; nl].

Definition summary_heading : pystr :=
  [nl; nl] ++ str "Summary:" ++ [nl; nl].

Definition form_heading : pystr :=
  [nl; nl] ++ str "Evaluation Form (scores ONLY):" ++ [nl; nl] ++ str "- ".

(** The order of the labels of an axis. *)
Definition le_str (a b : pystr) : Prop := PyStr.leb a b = true.

(** The row of a metric as the bar chart gets it. *)
Definition chart_of (p : Pivot) (m : pystr) : list (pystr * option Z) :=
  map (fun l => (l, lookup_cell p m l)) (columns p).

(** What the detailed part shows for one metric. *)
Definition detail_of (p : Pivot) (item : pystr * MetricInfo)
  : list Element :=
  [ Write (str "**" ++ fst item ++ str "**");
    BarChart (chart_of p (fst item));
    Expander (str "View " ++ fst item ++ str " Criteria")
      [criteria (snd item)] ].

(** Two outcomes of [evaluate_summaries] that agree: the same
    exception, or frames with the same metric and score columns. *)
Definition same_scores (o1 o2 : exn + list Row) : Prop :=
  match o1, o2 with
  | inl e1, inl e2 => e1 = e2
  | inr rows1, inr rows2 =>
      map row_metric rows1 = map row_metric rows2 /\
      map row_score rows1 = map row_score rows2
  | _, _ => False
  end.

(** ** Vocabulary of the runs over the store *)

(** The statements of [evaluate_summaries] after [data] is made, over
    three lists that are given. *)
Definition evaluate_over (evaluation_type summary_type score : nat)
    (source_text : pystr) (summaries : dict pystr) : Script (list Row) :=
  metrics <~ call load_METRICS ;;
  _ <~ for_each_s (items metrics) (fun '(eval_type, metric_info) =>
         for_each_s (items summaries) (fun '(summ_type, summary) =>
           _ <~ call (append_str evaluation_type eval_type) ;;
           _ <~ call (append_str summary_type summ_type) ;;
           result <~ Stateful.get_geval_score (criteria metric_info)
                       (steps metric_info) source_text summary eval_type ;;
           score_num <~ lift_s (parse_score result) ;;
           call (append_int score score_num))) ;;
  c1 <~ call (get_strs evaluation_type) ;;
  c2 <~ call (get_strs summary_type) ;;
  c3 <~ call (get_ints score) ;;
  lift_s (DataFrame {| Evaluation_Type := c1;
                       Summary_Type := c2;
                       Score := c3 |}).

(** A report builder that keeps [data] between its calls: the three
    lists are those at the addresses 0, 1 and 0 of the two heaps. *)
Definition build_report_keeping_data (source_text : pystr)
    (summaries : dict pystr) : Script Pivot :=
  results_df <~ evaluate_over 0 1 0 source_text summaries ;;
  lift_s (pivot results_df).

Definition store_with_data : Store :=
  {| global_TEMPLATE := EVALUATION_PROMPT_TEMPLATE;
     global_METRICS := METRICS;
     str_lists := [[]; []];
     int_lists := [[]] |}.

(** The lists at three addresses hold the columns of [d]. *)
Definition holds (st : Store) (a1 a2 a3 : nat) (d : Data) : Prop :=
  module_globals st /\
  (a1 < List.length (str_lists st))%nat /\
  (a2 < List.length (str_lists st))%nat /\
  a1 <> a2 /\
  (a3 < List.length (int_lists st))%nat /\
  nth a1 (str_lists st) [] = Evaluation_Type d /\
  nth a2 (str_lists st) [] = Summary_Type d /\
  nth a3 (int_lists st) [] = Score d.

(** A run over the store matches a run of a program: the same service
    state and exchanges, and both succeed or both raise the same
    exception; after success [post] holds, after an exception the
    globals are the module's. *)
Definition matches {S A B} (post : Store -> A -> B -> Prop)
    (r : Store * S * list Exchange * (exn + A))
    (r' : S * list Exchange * (exn + B)) : Prop :=
  left_state r = final_state r' /\
  snd (fst r) = exchanges r' /\
  match snd r, outcome r' with
  | inr a, inr b => post (left_store r) a b
  | inl e, inl e' => e = e' /\ module_globals (left_store r)
  | _, _ => False
  end.

(* ================================================================== *)
(** * Properties *)

(** ** The prompt *)

Lemma make_prompt_text (c st d su m : pystr) :
  make_prompt c st d su m = inr (prompt_text c st d su m).
Proof. vm_compute. reflexivity. Qed.

(** ** Running sequences and loops *)

Section Evaluation.

Context {S : Type} (svc : Service S).

Lemma run_bind {A B} (p : Prog A) (f : A -> Prog B) :
  forall s,
    run svc (bind p f) s =
    match run svc p s with
    | (s', log, inl e) => (s', log, inl e)
    | (s', log, inr a) =>
        let '(s'', log', out) := run svc (f a) s' in (s'', log ++ log', out)
    end.
Proof.
  induction p as [a | e | req k IH]; intros s; simpl.
  - destruct (run svc (f a) s) as [[s' log] out]. reflexivity.
  - reflexivity.
  - destruct (svc s req) as [s' [e | c]]; [reflexivity |].
    rewrite IH.
    destruct (run svc (k c) s') as [[s1 log1] [e | a]]; [reflexivity |].
    destruct (run svc (f a) s1) as [[s2 log2] out]. reflexivity.
Qed.

(** Loops whose bodies run alike run alike. *)
Lemma run_for_each_ext {X St}
    (b1 b2 : X -> St -> Prog St) (xs : list X) :
  (forall x st s, run svc (b1 x st) s = run svc (b2 x st) s) ->
  forall st s, run svc (for_each xs st b1) s = run svc (for_each xs st b2) s.
Proof.
  intros Hb. induction xs as [| x xs IH]; intros st s; simpl.
  - reflexivity.
  - rewrite !run_bind, Hb.
    destruct (run svc (b2 x st) s) as [[s1 log1] [e | st1]]; [reflexivity |].
    rewrite IH. reflexivity.
Qed.

(** The two nested loops run the jobs one after the other. *)
Lemma run_nested_loops {X Y St}
    (xs : list X) (ys : list Y) (body : X * Y -> St -> Prog St) :
  forall st s,
    run svc (for_each xs st (fun x st =>
               for_each ys st (fun y st => body (x, y) st))) s =
    run svc (for_each (list_prod xs ys) st body) s.
Proof.
  assert (Happ : forall (l1 l2 : list (X * Y)) st s,
             run svc (for_each (l1 ++ l2) st body) s =
             run svc (st' <- for_each l1 st body ;; for_each l2 st' body) s).
  { induction l1 as [| a l1 IH]; intros l2 st s; simpl.
    - reflexivity.
    - rewrite !run_bind.
      destruct (run svc (body a st) s) as [[s1 log1] [e | st1]];
        [reflexivity |].
      rewrite IH, run_bind.
      destruct (run svc (for_each l1 st1 body) s1) as [[s2 log2] [e | st2]];
        [reflexivity |].
      destruct (run svc (for_each l2 st2 body) s2) as [[s3 log3] out].
      rewrite app_assoc. reflexivity. }
  assert (Hmap : forall x (l : list Y) st s,
             run svc (for_each l st (fun y st => body (x, y) st)) s =
             run svc (for_each (map (pair x) l) st body) s).
  { induction l as [| y l IH]; intros st s; simpl.
    - reflexivity.
    - rewrite !run_bind.
      destruct (run svc (body (x, y) st) s) as [[s1 log1] [e | st1]];
        [reflexivity |].
      rewrite IH. reflexivity. }
  induction xs as [| x xs IH]; intros st s; simpl.
  - reflexivity.
  - rewrite Happ, !run_bind, Hmap.
    destruct (run svc (for_each (map (pair x) ys) st body) s)
      as [[s1 log1] [e | st1]]; [reflexivity |].
    rewrite IH. reflexivity.
Qed.

Arguments prompt_text : simpl never.
Arguments job_request : simpl never.
Arguments score_job : simpl never.

(** The effect of one job on the service and on [data]. *)
Lemma run_score_job source_text j data s :
  run svc (score_job source_text j data) s =
  let req := job_request source_text j in
  let '(s', reply) := svc s req in
  match reply with
  | inl e => (s', [(req, reply)], inl e)
  | inr c =>
      match parse_score c with
      | inl e => (s', [(req, reply)], inl e)
      | inr v =>
          (s', [(req, reply)],
           inr (append_Score
                  (append_Summary_Type
                     (append_Evaluation_Type data (job_metric j))
                     (job_label j)) v))
      end
  end.
Proof.
  unfold score_job, get_geval_score, job_request.
  rewrite make_prompt_text. cbn [lift bind run].
  destruct (svc s _) as [s' [e | c]]; [reflexivity |].
  destruct (parse_score c) as [e | v]; reflexivity.
Qed.

Lemma run_evaluate_summaries source_text summaries s :
  run svc (evaluate_summaries source_text summaries) s =
  match run svc (score_all source_text (jobs summaries) empty_data) s with
  | (s', log, inl e) => (s', log, inl e)
  | (s', log, inr data) =>
      (s', log,
       match DataFrame data with inl e => inl e | inr rows => inr rows end)
  end.
Proof.
  unfold evaluate_summaries, score_all, jobs, items.
  rewrite run_bind.
  rewrite <- (run_nested_loops METRICS summaries
                (score_job source_text)).
  rewrite (run_for_each_ext _
             (fun x st => for_each summaries st
                (fun y st => score_job source_text (x, y) st))).
  - destruct (run svc _ s) as [[s1 log1] [e | d]]; [reflexivity |].
    destruct (DataFrame d); simpl; rewrite app_nil_r; reflexivity.
  - intros [eval_type metric_info] st s0.
    apply run_for_each_ext. intros [summ_type summary] st' s1. reflexivity.
Qed.

Lemma run_score_all_cons source_text j js data s :
  run svc (score_all source_text (j :: js) data) s =
  match run svc (score_job source_text j data) s with
  | (s', log, inl e) => (s', log, inl e)
  | (s', log, inr data') =>
      let '(s'', log', out) := run svc (score_all source_text js data') s' in
      (s'', log ++ log', out)
  end.
Proof. unfold score_all. cbn [for_each]. apply run_bind. Qed.

Ltac step_job svc source_text j data s :=
  rewrite run_score_all_cons, run_score_job; cbv zeta;
  let s1 := fresh "s1" in
  let e := fresh "e" in
  let c := fresh "c" in
  let v := fresh "v" in
  let Hc := fresh "Hparse" in
  destruct (svc s (job_request source_text j)) as [s1 [e | c]];
  [ | destruct (parse_score c) as [e | v] eqn:Hc ].

(** A successful pass over the jobs: what [data] holds afterwards and
    what was exchanged with the service. *)
Lemma run_score_all_ok source_text js :
  forall data s s' log data',
    run svc (score_all source_text js data) s = (s', log, inr data') ->
    Evaluation_Type data' = Evaluation_Type data ++ map job_metric js /\
    Summary_Type data' = Summary_Type data ++ map job_label js /\
    map fst log = map (job_request source_text) js /\
    exists vs, Score data' = Score data ++ vs /\ Forall2 scored log vs.
Proof.
  induction js as [| j js IH]; intros data s s' log data' Hrun.
  - simpl in Hrun. inversion Hrun; subst.
    rewrite !List.app_nil_r. repeat split; try reflexivity.
    exists []. rewrite List.app_nil_r. split; [reflexivity | constructor].
  - revert Hrun. step_job svc source_text j data s; try discriminate.
    destruct (run svc (score_all source_text js _) s1)
      as [[s2 log2] out] eqn:Hrest.
    intros Hrun. inversion Hrun; subst.
    apply IH in Hrest. destruct Hrest as (He & Hs & Hreq & vs & Hv & Hsc).
    simpl in *. rewrite He, Hs, Hreq, <- !List.app_assoc. simpl.
    repeat split; try reflexivity.
    exists (v :: vs). rewrite Hv, <- List.app_assoc. split; [reflexivity |].
    constructor; [| exact Hsc]. exists c. split; [reflexivity | exact Hparse].
Qed.

(** Whatever the outcome, the requests made are those of an initial
    segment of the jobs, in order. *)
Lemma run_score_all_prefix source_text js :
  forall data s,
    exists js1 js2,
      js = js1 ++ js2 /\
      map fst (exchanges (run svc (score_all source_text js data) s)) =
      map (job_request source_text) js1.
Proof.
  induction js as [| j js IH]; intros data s.
  - exists [], []. split; reflexivity.
  - step_job svc source_text j data s.
    + exists [j], js. split; reflexivity.
    + exists [j], js. split; reflexivity.
    + match goal with
      | |- context [run svc (score_all source_text js ?d) s1] =>
          destruct (IH d s1) as (js1 & js2 & Hjs & Hreq);
          destruct (run svc (score_all source_text js d) s1)
            as [[s2 log2] out]
      end.
      exists (j :: js1), js2. split; [simpl; congruence |].
      unfold exchanges in *. simpl in *. congruence.
Qed.

(** A reply that does not parse ends the pass with its exception. *)
Lemma run_score_all_unparsed source_text js :
  forall data s req c e,
    In (req, inr c) (exchanges (run svc (score_all source_text js data) s)) ->
    parse_score c = inl e ->
    outcome (run svc (score_all source_text js data) s) = inl e.
Proof.
  induction js as [| j js IH]; intros data s req c0 e0 Hin Hbad.
  - destruct Hin.
  - revert Hin. step_job svc source_text j data s.
    + intros [Heq | []]. discriminate.
    + intros [Heq | []]. inversion Heq; subst.
      unfold outcome; simpl. congruence.
    + match goal with
      | |- context [run svc (score_all source_text js ?d) s1] =>
          specialize (IH d s1 req c0 e0);
          destruct (run svc (score_all source_text js d) s1)
            as [[s2 log2] out]
      end.
      unfold exchanges, outcome in *. simpl in *.
      intros [Heq | Hin]; [inversion Heq; subst; congruence | auto].
Qed.

(** ** The long frame *)

Lemma DataFrame_rows_of (js : list Job) (vs : list Z) :
  List.length vs = List.length js ->
  DataFrame {| Evaluation_Type := map job_metric js;
               Summary_Type := map job_label js;
               Score := vs |} = inr (rows_of js vs).
Proof.
  intros Hlen. unfold DataFrame. cbn [Evaluation_Type Summary_Type Score].
  rewrite !List.length_map, Hlen, !Nat.eqb_refl. cbn [andb]. f_equal.
  unfold rows_of. clear Hlen. revert vs.
  induction js as [| j js IH]; intros [| v vs]; simpl; try reflexivity.
  rewrite IH. reflexivity.
Qed.

Lemma rows_of_keys (js : list Job) :
  forall vs, List.length vs = List.length js ->
    map row_key (rows_of js vs) = map job_key js.
Proof.
  unfold rows_of.
  induction js as [| j js IH]; intros [| v vs] Hlen; simpl in *;
    try discriminate; try reflexivity.
  rewrite IH by lia. reflexivity.
Qed.

Lemma rows_of_scores (js : list Job) :
  forall vs, List.length vs = List.length js ->
    map row_score (rows_of js vs) = vs.
Proof.
  unfold rows_of.
  induction js as [| j js IH]; intros [| v vs] Hlen; simpl in *;
    try discriminate; try reflexivity.
  rewrite IH by lia. reflexivity.
Qed.

(** A successful evaluation, in full: the requests made, the scores
    parsed from the replies, and the rows returned. *)
Lemma evaluate_summaries_ok source_text summaries
    s s' log rows :
  run svc (evaluate_summaries source_text summaries) s = (s', log, inr rows) ->
  map fst log = map (job_request source_text) (jobs summaries) /\
  exists vs,
    Forall2 scored log vs /\
    List.length vs = List.length (jobs summaries) /\
    rows = rows_of (jobs summaries) vs.
Proof.
  rewrite run_evaluate_summaries.
  destruct (run svc (score_all source_text (jobs summaries) empty_data) s)
    as [[s1 log1] [e | data]] eqn:Hrun; [discriminate |].
  apply run_score_all_ok in Hrun.
  destruct Hrun as (He & Hs & Hreq & vs & Hv & Hsc). simpl in He, Hs, Hv.
  assert (Hlen : List.length vs = List.length (jobs summaries)).
  { pose proof (Forall2_length Hsc) as H1.
    pose proof (f_equal (@List.length _) Hreq) as H2.
    rewrite !List.length_map in H2.
    etransitivity; [symmetry; exact H1 | exact H2]. }
  destruct data as [ev su sc]. simpl in *. subst ev su sc.
  rewrite DataFrame_rows_of by exact Hlen.
  intros Heq. inversion Heq; subst. split; [exact Hreq |].
  exists vs. repeat split; assumption.
Qed.

(** The evaluation fails exactly when the pass over the jobs does. *)
Lemma evaluate_summaries_outcome_error source_text summaries s e :
  outcome (run svc (score_all source_text (jobs summaries) empty_data) s)
    = inl e ->
  outcome (run svc (evaluate_summaries source_text summaries) s) = inl e.
Proof.
  rewrite run_evaluate_summaries.
  destruct (run svc (score_all source_text (jobs summaries) empty_data) s)
    as [[s1 log1] [e1 | data]]; unfold outcome; simpl; congruence.
Qed.

Lemma evaluate_summaries_exchanges source_text summaries s :
  exchanges (run svc (evaluate_summaries source_text summaries) s) =
  exchanges (run svc (score_all source_text (jobs summaries) empty_data) s).
Proof.
  rewrite run_evaluate_summaries.
  destruct (run svc (score_all source_text (jobs summaries) empty_data) s)
    as [[s1 log1] [e1 | data]]; reflexivity.
Qed.

End Evaluation.

(** ** Keys, axes and cells *)

Lemma eqb_eq (a b : pystr) : PyStr.eqb a b = true <-> a = b.
Proof.
  unfold PyStr.eqb. destruct (list_eq_dec N.eq_dec a b); split;
    congruence.
Qed.

Lemma key_eqb_eq (a b : pystr * pystr) : key_eqb a b = true <-> a = b.
Proof.
  destruct a as [a1 a2], b as [b1 b2]. unfold key_eqb. simpl.
  rewrite andb_true_iff, !eqb_eq. split.
  - intros [-> ->]. reflexivity.
  - intros H. inversion H. auto.
Qed.

Lemma has_duplicate_NoDup (l : list (pystr * pystr)) :
  NoDup l -> has_duplicate l = false.
Proof.
  induction 1 as [| k r Hnotin Hnd IH]; simpl; [reflexivity |].
  rewrite IH, orb_false_r.
  destruct (existsb (key_eqb k) r) eqn:Hex; [| reflexivity].
  apply existsb_exists in Hex. destruct Hex as (k' & Hin & Heq).
  apply key_eqb_eq in Heq. subst k'. contradiction.
Qed.

Lemma NoDup_list_prod {A B} (l : list A) (l' : list B) :
  NoDup l -> NoDup l' -> NoDup (list_prod l l').
Proof.
  intros Hl Hl'. induction Hl as [| x t Hnotin Hnd IH]; simpl.
  - constructor.
  - apply NoDup_app.
    + apply Finite.Injective_map_NoDup; [| exact Hl'].
      intros y1 y2 Heq. inversion Heq. reflexivity.
    + exact IH.
    + intros [a b] Hin1 Hin2. apply in_map_iff in Hin1.
      destruct Hin1 as (y & Heq & _). inversion Heq; subst.
      apply in_prod_iff in Hin2. destruct Hin2. contradiction.
Qed.

Lemma job_keys_prod (summaries : dict pystr) :
  map job_key (jobs summaries) = list_prod (keys METRICS) (keys summaries).
Proof.
  unfold jobs, items, keys. generalize METRICS as ms.
  induction ms as [| m ms IH]; [reflexivity |].
  cbn [list_prod map]. rewrite List.map_app. f_equal; [| exact IH].
  rewrite !List.map_map. reflexivity.
Qed.

Lemma keys_METRICS :
  keys METRICS =
  [str "Relevance"; str "Coherence"; str "Consistency"; str "Fluency"].
Proof. reflexivity. Qed.

Lemma NoDup_keys_METRICS : NoDup (keys METRICS).
Proof.
  rewrite keys_METRICS.
  repeat constructor; simpl; intuition discriminate.
Qed.

Lemma NoDup_job_keys (summaries : dict pystr) :
  wf summaries -> NoDup (map job_key (jobs summaries)).
Proof.
  intros Hwf. rewrite job_keys_prod.
  apply NoDup_list_prod; [exact NoDup_keys_METRICS | exact Hwf].
Qed.

Lemma insert_sorted_perm (x : pystr) (l : list pystr) :
  Permutation (insert_sorted x l) (x :: l).
Proof.
  induction l as [| y r IH]; simpl.
  - apply Permutation_refl.
  - destruct (PyStr.leb x y).
    + apply Permutation_refl.
    + eapply perm_trans; [apply perm_skip, IH | apply perm_swap].
Qed.

Lemma sorted_perm (l : list pystr) : Permutation (sorted l) l.
Proof.
  induction l as [| x r IH]; simpl.
  - constructor.
  - eapply perm_trans; [apply insert_sorted_perm | apply perm_skip, IH].
Qed.

Lemma axis_In (l : list pystr) (x : pystr) : In x (axis l) <-> In x l.
Proof.
  unfold axis. rewrite <- (nodup_In pystr_eq_dec l x). split.
  - apply Permutation_in, sorted_perm.
  - apply Permutation_in, Permutation_sym, sorted_perm.
Qed.

Lemma axis_NoDup (l : list pystr) : NoDup (axis l).
Proof.
  unfold axis.
  eapply Permutation_NoDup;
    [apply Permutation_sym, sorted_perm | apply NoDup_nodup].
Qed.

Lemma cell_of_In (rows : list Row) (r : Row) :
  NoDup (map row_key rows) -> In r rows ->
  cell_of rows (row_metric r) (row_summary r) = Some (row_score r).
Proof.
  unfold cell_of.
  induction rows as [| r0 rows IH]; intros Hnd Hin; [destruct Hin |].
  simpl in Hnd. inversion Hnd as [| k ks Hnotin Hnd']; subst.
  simpl. destruct (key_eqb (row_key r0) (row_metric r, row_summary r))
    eqn:Heq.
  - destruct Hin as [-> | Hin]; [reflexivity |].
    apply key_eqb_eq in Heq. exfalso. apply Hnotin.
    rewrite Heq. apply (in_map row_key) in Hin. exact Hin.
  - destruct Hin as [-> | Hin].
    + assert (Hrefl : key_eqb (row_key r) (row_key r) = true)
        by (apply key_eqb_eq; reflexivity).
      unfold row_key in Hrefl at 2. congruence.
    + apply IH; assumption.
Qed.

Lemma find_labelled {V} (f : pystr -> V) (labels : list pystr) (x : pystr) :
  In x labels ->
  find (fun '(x', _) => PyStr.eqb x' x) (combine labels (map f labels))
  = Some (x, f x).
Proof.
  induction labels as [| y r IH]; intros Hin; [destruct Hin |].
  simpl. destruct (PyStr.eqb y x) eqn:Heq.
  - apply eqb_eq in Heq. subst. reflexivity.
  - destruct Hin as [-> | Hin]; [| auto].
    assert (PyStr.eqb x x = true) by (apply eqb_eq; reflexivity).
    congruence.
Qed.

(** Reading a pivot table at labels it has gives the row's score. *)
Lemma lookup_cell_pivot (rows : list Row) (p : Pivot) (r : Row) :
  pivot rows = inr p -> In r rows ->
  lookup_cell p (row_metric r) (row_summary r) = Some (row_score r).
Proof.
  unfold pivot.
  destruct (has_duplicate (map row_key rows)) eqn:Hdup; [discriminate |].
  intros Hp Hin. inversion Hp; subst p; clear Hp.
  unfold lookup_cell. cbn [index columns cells].
  rewrite (find_labelled
             (fun m => map (fun l => cell_of rows m l)
                         (axis (map row_summary rows)))).
  2:{ apply axis_In, in_map, Hin. }
  rewrite (find_labelled (fun l => cell_of rows (row_metric r) l)).
  2:{ apply axis_In, in_map, Hin. }
  apply cell_of_In; [| exact Hin].
  clear Hin. induction rows as [| r0 rows IH]; [constructor |].
  simpl in *. apply orb_false_iff in Hdup. destruct Hdup as [Hex Hdup].
  constructor; [| auto].
  intros Hin. assert (existsb (key_eqb (row_key r0)) (map row_key rows) = true).
  { apply existsb_exists. exists (row_key r0). split; [exact Hin |].
    apply key_eqb_eq. reflexivity. }
  congruence.
Qed.

(** ** The report *)

Section Report.

Context {S : Type} (svc : Service S).

Lemma run_build_report source_text summaries s :
  run svc (build_report source_text summaries) s =
  match run svc (evaluate_summaries source_text summaries) s with
  | (s', log, inl e) => (s', log, inl e)
  | (s', log, inr rows) =>
      (s', log, match pivot rows with inl e => inl e | inr p => inr p end)
  end.
Proof.
  unfold build_report. rewrite run_bind.
  destruct (run svc (evaluate_summaries source_text summaries) s)
    as [[s1 log1] [e | rows]]; [reflexivity |].
  destruct (pivot rows); simpl; rewrite List.app_nil_r; reflexivity.
Qed.

Lemma build_report_exchanges source_text summaries s :
  exchanges (run svc (build_report source_text summaries) s) =
  exchanges (run svc (evaluate_summaries source_text summaries) s).
Proof.
  rewrite run_build_report.
  destruct (run svc (evaluate_summaries source_text summaries) s)
    as [[s1 log1] [e | rows]]; reflexivity.
Qed.

Lemma build_report_outcome_error source_text summaries s e :
  outcome (run svc (evaluate_summaries source_text summaries) s) = inl e ->
  outcome (run svc (build_report source_text summaries) s) = inl e.
Proof.
  rewrite run_build_report.
  destruct (run svc (evaluate_summaries source_text summaries) s)
    as [[s1 log1] [e1 | rows]]; unfold outcome; simpl; congruence.
Qed.

(** The rows of a well-formed mapping always reshape. *)
Lemma pivot_rows_of (summaries : dict pystr) (vs : list Z) :
  wf summaries ->
  List.length vs = List.length (jobs summaries) ->
  exists p, pivot (rows_of (jobs summaries) vs) = inr p.
Proof.
  intros Hwf Hlen. unfold pivot.
  rewrite rows_of_keys by exact Hlen.
  rewrite has_duplicate_NoDup by (apply NoDup_job_keys, Hwf).
  eexists. reflexivity.
Qed.

(** A successful report, in full. *)
Lemma build_report_ok source_text summaries
    s s' log p :
  run svc (build_report source_text summaries) s = (s', log, inr p) ->
  map fst log = map (job_request source_text) (jobs summaries) /\
  exists vs,
    Forall2 scored log vs /\
    List.length vs = List.length (jobs summaries) /\
    pivot (rows_of (jobs summaries) vs) = inr p.
Proof.
  rewrite run_build_report.
  destruct (run svc (evaluate_summaries source_text summaries) s)
    as [[s1 log1] [e | rows]] eqn:Hrun; [discriminate |].
  apply evaluate_summaries_ok in Hrun.
  destruct Hrun as (Hreq & vs & Hsc & Hlen & ->).
  destruct (pivot (rows_of (jobs summaries) vs)) as [e | p0] eqn:Hp;
    [discriminate |].
  intros Heq. inversion Heq; subst. split; [exact Hreq |].
  exists vs. repeat split; assumption.
Qed.

(** Each job's score is the cell at the job's metric and label. *)
Lemma pivot_cells_of_jobs (js : list Job) (vs : list Z) (p : Pivot) :
  List.length vs = List.length js ->
  pivot (rows_of js vs) = inr p ->
  Forall2 (fun j v => lookup_cell p (job_metric j) (job_label j) = Some v)
    js vs.
Proof.
  intros Hlen Hp.
  assert (Hall : forall j v, In (j, v) (combine js vs) ->
            lookup_cell p (job_metric j) (job_label j) = Some v).
  { intros j v Hin.
    apply (lookup_cell_pivot _ _
             {| row_metric := job_metric j; row_summary := job_label j;
                row_score := v |} Hp).
    unfold rows_of. apply in_map_iff. exists (j, v). split; [reflexivity |].
    exact Hin. }
  clear Hp. revert vs Hlen Hall.
  induction js as [| j js IH]; intros [| v vs] Hlen Hall;
    try discriminate; constructor.
  - apply Hall. left. reflexivity.
  - apply IH; [simpl in Hlen; lia |].
    intros j' v' Hin. apply Hall. right. exact Hin.
Qed.

(** The shape of a pivot table whose rows cover every pairing of the
    metrics [ms] with the labels [ls] once. *)
Lemma pivot_shape (rows : list Row) (p : Pivot) (ms ls : list pystr) :
  NoDup ms -> NoDup ls -> ls <> [] -> ms <> [] ->
  map row_key rows = list_prod ms ls ->
  pivot rows = inr p ->
  Permutation (index p) ms /\ Permutation (columns p) ls /\
  List.length (cells p) = List.length ms /\
  Forall (fun line =>
            List.length line = List.length ls /\
            Forall (fun c => exists r, In r rows /\ c = Some (row_score r))
              line)
    (cells p).
Proof.
  intros Hms Hls Hlne Hmne Hkeys Hp.
  assert (Hin_m : forall m, In m (map row_metric rows) <-> In m ms).
  { intros m. replace (map row_metric rows) with (map fst (map row_key rows))
      by (rewrite List.map_map; reflexivity).
    rewrite Hkeys, in_map_iff. split.
    - intros ([a b] & <- & Hin). apply in_prod_iff in Hin. tauto.
    - intros Hin. destruct ls as [| l0 ls']; [congruence |].
      exists (m, l0). split; [reflexivity |].
      apply in_prod_iff. split; [exact Hin | left; reflexivity]. }
  assert (Hin_l : forall l, In l (map row_summary rows) <-> In l ls).
  { intros l. replace (map row_summary rows) with (map snd (map row_key rows))
      by (rewrite List.map_map; reflexivity).
    rewrite Hkeys, in_map_iff. split.
    - intros ([a b] & <- & Hin). apply in_prod_iff in Hin. tauto.
    - intros Hin. destruct ms as [| m0 ms']; [congruence |].
      exists (m0, l). split; [reflexivity |].
      apply in_prod_iff. split; [left; reflexivity | exact Hin]. }
  assert (Hnd : NoDup (map row_key rows))
    by (rewrite Hkeys; apply NoDup_list_prod; assumption).
  unfold pivot in Hp. rewrite (has_duplicate_NoDup _ Hnd) in Hp.
  inversion Hp; subst p; clear Hp. cbn [index columns cells].
  assert (Hpi : Permutation (axis (map row_metric rows)) ms).
  { apply NoDup_Permutation; [apply axis_NoDup | exact Hms |].
    intros x. rewrite axis_In. apply Hin_m. }
  assert (Hpc : Permutation (axis (map row_summary rows)) ls).
  { apply NoDup_Permutation; [apply axis_NoDup | exact Hls |].
    intros x. rewrite axis_In. apply Hin_l. }
  repeat split; try assumption.
  - rewrite List.length_map. apply Permutation_length, Hpi.
  - apply Forall_forall. intros line Hline.
    apply in_map_iff in Hline. destruct Hline as (m & <- & Hm).
    split; [rewrite List.length_map; apply Permutation_length, Hpc |].
    apply Forall_forall. intros c Hc.
    apply in_map_iff in Hc. destruct Hc as (l & <- & Hl).
    apply axis_In, Hin_m in Hm. apply axis_In, Hin_l in Hl.
    assert (Hk : In (m, l) (map row_key rows))
      by (rewrite Hkeys; apply in_prod_iff; tauto).
    apply in_map_iff in Hk. destruct Hk as (r & Hr & Hin).
    exists r. split; [exact Hin |].
    inversion Hr; subst. apply cell_of_In; assumption.
Qed.

End Report.

(** ** Helpers on lists *)

Lemma Forall2_join {A B C} (P : B -> C -> Prop) (Q : A -> C -> Prop)
    (R : A -> B -> Prop) :
  (forall a b c, P b c -> Q a c -> R a b) ->
  forall (la : list A) (lb : list B) (lc : list C),
    Forall2 P lb lc -> Forall2 Q la lc -> Forall2 R la lb.
Proof.
  intros HR la lb lc HP. revert la.
  induction HP as [| b c lb lc Hbc HP IH]; intros la HQ;
    inversion HQ; subst; constructor; eauto.
Qed.

Lemma Forall2_map_right {A B C} (P : A -> C -> Prop) (f : B -> C) :
  forall (la : list A) (lb : list B),
    Forall2 P la (map f lb) -> Forall2 (fun a b => P a (f b)) la lb.
Proof.
  intros la lb. revert la.
  induction lb as [| b lb IH]; intros la H; inversion H; subst;
    constructor; auto.
Qed.

Lemma Forall2_requests {A} (f : A -> Request) (R : A -> Exchange -> Prop) :
  forall (la : list A) (log : list Exchange),
    map fst log = map f la ->
    Forall2 R la log ->
    Forall2 (fun a ex => fst ex = f a /\ R a ex) la log.
Proof.
  intros la log Hreq HR. revert Hreq.
  induction HR as [| a ex la log Hr HR IH]; intros Hreq; constructor.
  - simpl in Hreq. inversion Hreq. auto.
  - apply IH. simpl in Hreq. inversion Hreq. reflexivity.
Qed.

(** A decision procedure for the dictionary invariant. *)
Lemma nodupb_wf {V} (d : dict V) : nodupb (keys d) = true -> wf d.
Proof.
  unfold wf. induction (keys d) as [| x r IH]; simpl; intros H.
  - constructor.
  - apply andb_true_iff in H. destruct H as [Hx Hr].
    constructor; [| auto].
    intros Hin. apply negb_true_iff in Hx.
    assert (existsb (PyStr.eqb x) r = true); [| congruence].
    apply existsb_exists. exists x. split; [exact Hin |].
    apply eqb_eq. reflexivity.
Qed.

Lemma run_deterministic {S A} (svc : Service S) (p : Prog A) :
  deterministic svc ->
  forall s1 s2,
    exchanges (run svc p s1) = exchanges (run svc p s2) /\
    outcome (run svc p s1) = outcome (run svc p s2).
Proof.
  intros Hdet. induction p as [a | e | req k IH]; intros s1 s2.
  - split; reflexivity.
  - split; reflexivity.
  - simpl. specialize (Hdet s1 s2 req).
    destruct (svc s1 req) as [s1' r1], (svc s2 req) as [s2' r2].
    simpl in Hdet. subst r2. destruct r1 as [e | c].
    + split; reflexivity.
    + specialize (IH c s1' s2').
      destruct (run svc (k c) s1') as [[t1 log1] out1].
      destruct (run svc (k c) s2') as [[t2 log2] out2].
      unfold exchanges, outcome in *. simpl in *.
      destruct IH as [-> ->]. split; reflexivity.
Qed.

(** ** Runs over the store *)

Lemma length_append_at {X} (a : nat) (x : X) (h : list (list X)) :
  List.length (append_at a x h) = List.length h.
Proof.
  revert a. induction h as [| l h IH]; intros a; [reflexivity |].
  destruct a; simpl; [reflexivity |]. rewrite IH. reflexivity.
Qed.

Lemma nth_append_at_same {X} (a : nat) (x : X) (h : list (list X)) :
  (a < List.length h)%nat ->
  nth a (append_at a x h) [] = nth a h [] ++ [x].
Proof.
  revert a. induction h as [| l h IH]; intros a Ha; simpl in Ha; [lia |].
  destruct a; simpl; [reflexivity |]. apply IH. lia.
Qed.

Lemma nth_append_at_other {X} (a b : nat) (x : X) (h : list (list X)) :
  a <> b -> nth b (append_at a x h) [] = nth b h [].
Proof.
  revert a b. induction h as [| l h IH]; intros a b Hab.
  - reflexivity.
  - destruct a, b; simpl; try reflexivity; [congruence |].
    apply IH. congruence.
Qed.

(** [evaluate_summaries] makes three lists and goes on over them. *)
Lemma evaluate_summaries_over (source_text : pystr)
    (summaries : dict pystr) :
  Stateful.evaluate_summaries source_text summaries =
  Do new_strs (fun evaluation_type =>
    Do new_strs (fun summary_type =>
      Do new_ints (fun score =>
        evaluate_over evaluation_type summary_type score
          source_text summaries))).
Proof. reflexivity. Qed.

Ltac matches_intro :=
  split; [reflexivity |]; split; [reflexivity |];
  cbv [left_state final_state exchanges outcome left_store fst snd].

Ltac matches_elim H :=
  let Hs := fresh "Hs" in
  let Hl := fresh "Hl" in
  destruct H as (Hs & Hl & H);
  cbv [left_state final_state exchanges outcome left_store fst snd]
    in Hs, Hl, H;
  try contradiction; subst.

Section Simulation.

Context {S : Type} (svc : Service S).

Lemma exec_then {A B} (p : Script A) (f : A -> Script B) :
  forall st s,
    exec svc (then_ p f) st s =
    match exec svc p st s with
    | (st', s', log, inl e) => (st', s', log, inl e)
    | (st', s', log, inr a) =>
        let '(st'', s'', log', out) := exec svc (f a) st' s' in
        (st'', s'', log ++ log', out)
    end.
Proof.
  induction p as [a | e | X op k IH]; intros st s; simpl.
  - destruct (exec svc (f a) st s) as [[[st' s'] log] out]. reflexivity.
  - reflexivity.
  - destruct (do_op svc op st s) as [[[st1 s1] log1] [e | x]];
      [reflexivity |].
    rewrite IH.
    destruct (exec svc (k x) st1 s1) as [[[st2 s2] log2] [e | a]];
      [reflexivity |].
    destruct (exec svc (f a) st2 s2) as [[[st3 s3] log3] out].
    rewrite List.app_assoc. reflexivity.
Qed.

Lemma exec_call {X} (op : Op X) (st : Store) (s : S) :
  exec svc (call op) st s = do_op svc op st s.
Proof.
  unfold call. simpl.
  destruct (do_op svc op st s) as [[[st1 s1] log1] [e | x]];
    [reflexivity |].
  rewrite List.app_nil_r. reflexivity.
Qed.

Lemma exec_lift_s {A} (r : exn + A) (st : Store) (s : S) :
  exec svc (lift_s r) st s = (st, s, [], r).
Proof. destruct r; reflexivity. Qed.

Lemma exec_get_geval_score (c stp d su m : pystr) (st : Store) (s : S) :
  module_globals st ->
  exec svc (Stateful.get_geval_score c stp d su m) st s =
  let req := make_request (prompt_text c stp d su m) in
  let '(s', reply) := svc s req in (st, s', [(req, reply)], reply).
Proof.
  intros [Ht _]. unfold Stateful.get_geval_score.
  rewrite exec_then, exec_call. cbn [do_op]. rewrite Ht.
  change (format EVALUATION_PROMPT_TEMPLATE _)
    with (make_prompt c stp d su m).
  rewrite make_prompt_text. cbn [lift_s then_]. rewrite exec_call.
  cbn [do_op app]. destruct (svc s _) as [s' reply]. reflexivity.
Qed.

Lemma matches_for_each {X} (I : Store -> Data -> Prop)
    (body_s : X -> Script unit) (body : X -> Data -> Prog Data) :
  (forall x st d s,
      I st d ->
      matches (fun st' _ d' => I st' d')
        (exec svc (body_s x) st s) (run svc (body x d) s)) ->
  forall xs st d s,
    I st d ->
    matches (fun st' _ d' => I st' d')
      (exec svc (for_each_s xs body_s) st s)
      (run svc (for_each xs d body) s).
Proof.
  intros Hbody. induction xs as [| x xs IH]; intros st d s HI.
  - matches_intro. exact HI.
  - cbn [for_each_s for_each]. rewrite exec_then, run_bind.
    specialize (Hbody x st d s HI).
    destruct (exec svc (body_s x) st s) as [[[st1 s1] log1] [e | []]];
      destruct (run svc (body x d) s) as [[s1' log1'] [e' | d1]];
      matches_elim Hbody.
    + matches_intro. exact Hbody.
    + specialize (IH st1 d1 s1' Hbody).
      destruct (exec svc (for_each_s xs body_s) st1 s1')
        as [[[st2 s2] log2] out2].
      destruct (run svc (for_each xs d1 body) s1') as [[s2' log2'] out2'].
      matches_elim IH; destruct out2, out2'; try contradiction;
        matches_intro; exact IH.
Qed.

Lemma holds_globals (st : Store) (a1 a2 a3 : nat) (d : Data) :
  holds st a1 a2 a3 d -> module_globals st.
Proof. intros H. apply H. Qed.

Lemma matches_score_job (a1 a2 a3 : nat) (source_text : pystr) (j : Job)
    (st : Store) (d : Data) (s : S) :
  holds st a1 a2 a3 d ->
  matches (fun st' _ d' => holds st' a1 a2 a3 d')
    (exec svc
       (_ <~ call (append_str a1 (job_metric j)) ;;
        _ <~ call (append_str a2 (job_label j)) ;;
        result <~ Stateful.get_geval_score (criteria (snd (fst j)))
                    (steps (snd (fst j))) source_text (snd (snd j))
                    (job_metric j) ;;
        score_num <~ lift_s (parse_score result) ;;
        call (append_int a3 score_num)) st s)
    (run svc (score_job source_text j d) s).
Proof.
  intros (Hg & H1 & H2 & Hne & H3 & Hc1 & Hc2 & Hc3).
  rewrite run_score_job.
  rewrite exec_then, exec_call. cbn [do_op].
  rewrite exec_then, exec_call. cbn [do_op].
  rewrite exec_then, exec_get_geval_score by exact Hg.
  cbv zeta. fold (job_request source_text j).
  destruct (svc s (job_request source_text j)) as [s' [e | c]].
  - repeat split. exact (proj1 Hg). exact (proj2 Hg).
  - rewrite exec_then, exec_lift_s.
    destruct (parse_score c) as [e | v].
    + repeat split. exact (proj1 Hg). exact (proj2 Hg).
    + rewrite exec_call. cbn [do_op].
      split; [reflexivity |]. split; [reflexivity |].
      cbn [snd outcome left_store fst].
      unfold holds.
      cbn [str_lists int_lists global_TEMPLATE global_METRICS
           append_Score append_Summary_Type append_Evaluation_Type
           Evaluation_Type Summary_Type Score].
      rewrite !length_append_at.
      split; [exact Hg |].
      repeat split; try assumption.
      * rewrite nth_append_at_other by congruence.
        rewrite nth_append_at_same by assumption. f_equal. exact Hc1.
      * rewrite nth_append_at_same
          by (rewrite length_append_at; assumption).
        rewrite nth_append_at_other by assumption. f_equal. exact Hc2.
      * rewrite nth_append_at_same by assumption. f_equal. exact Hc3.
Qed.

Lemma matches_loops (a1 a2 a3 : nat) (source_text : pystr)
    (summaries : dict pystr) (metrics : list (pystr * MetricInfo))
    (st : Store) (d : Data) (s : S) :
  holds st a1 a2 a3 d ->
  matches (fun st' _ d' => holds st' a1 a2 a3 d')
    (exec svc
       (for_each_s metrics (fun '(eval_type, metric_info) =>
          for_each_s (items summaries) (fun '(summ_type, summary) =>
            _ <~ call (append_str a1 eval_type) ;;
            _ <~ call (append_str a2 summ_type) ;;
            result <~ Stateful.get_geval_score (criteria metric_info)
                        (steps metric_info) source_text summary eval_type ;;
            score_num <~ lift_s (parse_score result) ;;
            call (append_int a3 score_num)))) st s)
    (run svc
       (for_each metrics d (fun '(eval_type, metric_info) data =>
          for_each (items summaries) data
            (fun '(summ_type, summary) data =>
               let data := append_Evaluation_Type data eval_type in
               let data := append_Summary_Type data summ_type in
               result <- get_geval_score (criteria metric_info)
                           (steps metric_info) source_text summary
                           eval_type ;;
               score_num <- lift (parse_score result) ;;
               Ret (append_Score data score_num)))) s).
Proof.
  revert st d s.
  apply (matches_for_each (fun st d => holds st a1 a2 a3 d)).
  intros [eval_type metric_info] st d s Hh.
  revert st d s Hh.
  apply (matches_for_each (fun st d => holds st a1 a2 a3 d)).
  intros [summ_type summary] st d s Hh.
  exact (matches_score_job a1 a2 a3 source_text
           ((eval_type, metric_info), (summ_type, summary)) st d s Hh).
Qed.

Lemma matches_evaluate_summaries (source_text : pystr)
    (summaries : dict pystr) (st : Store) (s : S) :
  module_globals st ->
  matches (fun st' rows rows' => rows = rows' /\ module_globals st')
    (exec svc (Stateful.evaluate_summaries source_text summaries) st s)
    (run svc (evaluate_summaries source_text summaries) s).
Proof.
  intros Hg. unfold Stateful.evaluate_summaries, evaluate_summaries.
  rewrite exec_then, exec_call. cbn [do_op].
  rewrite exec_then, exec_call. cbn [do_op str_lists].
  rewrite exec_then, exec_call. cbn [do_op int_lists].
  rewrite exec_then, exec_call.
  cbn [do_op global_METRICS]. rewrite (proj2 Hg).
  rewrite exec_then, run_bind.
  match goal with
  | |- context [exec svc (for_each_s _ _) ?st1 _] =>
      assert (Hh : holds st1 (List.length (str_lists st))
                     (List.length (str_lists st ++ [[]]))
                     (List.length (int_lists st)) empty_data)
  end.
  { unfold holds.
    cbn [str_lists int_lists global_TEMPLATE global_METRICS
         Evaluation_Type Summary_Type Score empty_data].
    split; [split; [apply Hg | reflexivity] |].
    repeat split;
      try (rewrite !List.length_app; cbn [List.length]; lia).
    - rewrite <- List.app_assoc. apply nth_middle.
    - apply (nth_middle (str_lists st ++ [[]]) []).
    - apply nth_middle. }
  pose proof (matches_loops _ _ _ source_text summaries (items METRICS)
                _ _ s Hh) as Hm.
  match goal with
  | |- context [exec svc (for_each_s ?xs ?b) ?st1 s] =>
      destruct (exec svc (for_each_s xs b) st1 s)
        as [[[st2 s2] log2] [e | []]]
  end;
  match goal with
  | |- context [run svc (for_each ?xs ?d ?b) s] =>
      destruct (run svc (for_each xs d b) s) as [[s2' log2'] [e' | d2]]
  end;
  destruct Hm as (Hs & Hl & Hp); cbv [left_state final_state exchanges outcome left_store fst snd] in Hs, Hl, Hp;
    try contradiction; subst s2' log2'.
  - destruct Hp as [-> Hg2]. repeat split. exact (proj1 Hg2).
    exact (proj2 Hg2).
  - destruct Hp as (Hg2 & _ & _ & _ & _ & Hc1 & Hc2 & Hc3).
    rewrite exec_then, exec_call. cbn [do_op].
    rewrite exec_then, exec_call. cbn [do_op].
    rewrite exec_then, exec_call. cbn [do_op].
    rewrite exec_lift_s, Hc1, Hc2, Hc3.
    replace {| Evaluation_Type := Evaluation_Type d2;
               Summary_Type := Summary_Type d2;
               Score := Score d2 |} with d2 by (destruct d2; reflexivity).
    destruct (DataFrame d2) as [e | rows]; simpl.
    + rewrite !List.app_nil_r. repeat split. exact (proj1 Hg2).
      exact (proj2 Hg2).
    + rewrite !List.app_nil_r. repeat split. exact (proj1 Hg2).
      exact (proj2 Hg2).
Qed.

(** From a store whose globals are the module's, the statements of
    [build_report] over the store do what the program [build_report]
    does, and leave the globals as they were. *)
Lemma exec_build_report (source_text : pystr) (summaries : dict pystr)
    (st : Store) (s : S) :
  module_globals st ->
  observed (exec svc (Stateful.build_report source_text summaries) st s) =
  run svc (build_report source_text summaries) s /\
  module_globals
    (left_store
       (exec svc (Stateful.build_report source_text summaries) st s)).
Proof.
  intros Hg. unfold Stateful.build_report, build_report.
  rewrite exec_then, run_bind.
  pose proof (matches_evaluate_summaries source_text summaries st s Hg)
    as Hm.
  destruct (exec svc (Stateful.evaluate_summaries source_text summaries)
              st s) as [[[st1 s1] log1] [e | rows]];
    destruct (run svc (evaluate_summaries source_text summaries) s)
      as [[s1' log1'] [e' | rows']];
    destruct Hm as (Hs & Hl & Hp); cbv [left_state final_state exchanges outcome left_store fst snd] in Hs, Hl, Hp;
    try contradiction; subst s1' log1'.
  - destruct Hp as [-> Hg1]. split; [reflexivity | exact Hg1].
  - destruct Hp as [-> Hg1]. rewrite exec_lift_s.
    destruct (pivot rows') as [e | p]; simpl;
      (split; [reflexivity | exact Hg1]).
Qed.

End Simulation.

(* ================================================================== *)
(** * The claims *)

(** ** Sample inputs *)

Lemma wf_cat_summaries : wf cat_summaries.
Proof. apply nodupb_wf. reflexivity. Qed.

(** ** C1 *)

(** C1. For a well-formed, non-empty mapping of N summaries, no run of
    [build_report] makes more than 4 * N calls, and a run that succeeds
    has made exactly 4 * N, one for each (metric, summary) job and in
    the order of the jobs; the cell at a job's metric and label holds
    the score parsed from the reply to that job's call; the table has
    one row for each of the 4 metrics, one column for each of the N
    labels, no label twice on either axis, and no cell is missing.
    Neither the bound N <= 5 nor the non-emptiness of the texts is
    needed. *)
Theorem build_report_table_complete :
  forall (S : Type) (svc : Service S) (source_text : pystr)
         (summaries : dict pystr) (s : S),
    wf summaries -> summaries <> [] ->
    let log := exchanges (run svc (build_report source_text summaries) s) in
    (List.length log <= 4 * List.length summaries)%nat /\
    forall p : Pivot,
      outcome (run svc (build_report source_text summaries) s) = inr p ->
      List.length log = (4 * List.length summaries)%nat /\
      Forall2 (fun j ex =>
                 fst ex = job_request source_text j /\
                 exists v, scored ex v /\
                   lookup_cell p (job_metric j) (job_label j) = Some v)
        (list_prod (items METRICS) (items summaries)) log /\
      Permutation (index p) (keys METRICS) /\
      List.length (index p) = 4%nat /\ NoDup (index p) /\
      Permutation (columns p) (keys summaries) /\
      List.length (columns p) = List.length summaries /\
      NoDup (columns p) /\
      List.length (cells p) = 4%nat /\
      Forall (fun line =>
                List.length line = List.length summaries /\
                Forall (fun c => c <> None) line)
        (cells p).
Proof.
  intros S svc source_text summaries s Hwf Hne log.
  assert (Hjobs : List.length (jobs summaries)
                  = (4 * List.length summaries)%nat).
  { unfold jobs, items.
    etransitivity; [apply List.length_prod | reflexivity]. }
  split.
  { subst log.
    rewrite build_report_exchanges, evaluate_summaries_exchanges.
    destruct (run_score_all_prefix svc source_text (jobs summaries)
                empty_data s) as (js1 & js2 & Hsplit & Hreq).
    apply (f_equal (@List.length _)) in Hreq.
    rewrite !List.length_map in Hreq.
    rewrite <- Hjobs.
    etransitivity; [apply Nat.eq_le_incl, Hreq |].
    rewrite Hsplit, List.length_app. lia. }
  intros p. subst log.
  destruct (run svc (build_report source_text summaries) s)
    as [[s' log] out] eqn:Hrun.
  unfold outcome, exchanges. simpl. intros ->.
  apply build_report_ok in Hrun.
  destruct Hrun as (Hreq & vs & Hsc & Hlen & Hp).
  fold (jobs summaries).
  assert (Hkeys : map row_key (rows_of (jobs summaries) vs) =
                  list_prod (keys METRICS) (keys summaries))
    by (rewrite rows_of_keys by exact Hlen; apply job_keys_prod).
  assert (Hkne : keys summaries <> [])
    by (destruct summaries; [congruence | discriminate]).
  assert (Hmne : keys METRICS <> []) by discriminate.
  destruct (pivot_shape _ _ _ _ NoDup_keys_METRICS Hwf Hkne Hmne Hkeys Hp)
    as (Hpi & Hpc & Hlc & Hcells).
  assert (Hlk : List.length (keys summaries) = List.length summaries)
    by apply List.length_map.
  split.
  { apply (f_equal (@List.length _)) in Hreq.
    rewrite !List.length_map in Hreq.
    etransitivity; [exact Hreq | exact Hjobs]. }
  split.
  { apply Forall2_requests; [exact Hreq |].
    apply Forall2_join
      with (P := scored)
           (Q := fun j v =>
                   lookup_cell p (job_metric j) (job_label j) = Some v)
           (lc := vs).
    - intros j ex v Hs Hc. exists v. split; assumption.
    - exact Hsc.
    - apply pivot_cells_of_jobs; assumption. }
  split; [exact Hpi |].
  split; [apply Permutation_length in Hpi; exact Hpi |].
  split; [eapply Permutation_NoDup;
          [apply Permutation_sym, Hpi | exact NoDup_keys_METRICS] |].
  split; [exact Hpc |].
  split; [apply Permutation_length in Hpc; congruence |].
  split; [eapply Permutation_NoDup;
          [apply Permutation_sym, Hpc | exact Hwf] |].
  split; [exact Hlc |].
  eapply Forall_impl; [| exact Hcells].
  intros line [Hl Hc]. split; [congruence |].
  eapply Forall_impl; [| exact Hc].
  intros c (r & _ & ->). discriminate.
Qed.

Lemma build_report_table_complete_witness :
  wf cat_summaries /\ cat_summaries <> [] /\
  outcome (run numbering (build_report cat_document cat_summaries) 0)
    = inr numbered_report /\
  List.length
    (exchanges (run numbering (build_report cat_document cat_summaries) 0))
    = 8%nat /\
  List.length (index numbered_report) = 4%nat.
Proof.
  split; [exact wf_cat_summaries |].
  split; [discriminate |].
  split; [vm_compute; reflexivity |].
  pose proof (build_report_table_complete N numbering cat_document
                cat_summaries 0 wf_cat_summaries
                ltac:(discriminate)) as H.
  cbv zeta in H. destruct H as (_ & H).
  destruct (H numbered_report ltac:(vm_compute; reflexivity))
    as (Hcalls & _ & _ & Hrows & _).
  split; [exact Hcalls | exact Hrows].
Defined.

(** ** C2 *)

(** C2. If, in a run of [build_report], some reply of the service is a
    text that [int] does not accept once stripped, the run ends with the
    [ValueError] of [int]: the outcome is that exception and not a
    report, and the same holds for [evaluate_summaries]. *)
Theorem unparsable_reply_fails_the_run :
  forall (S : Type) (svc : Service S) (source_text : pystr)
         (summaries : dict pystr) (s : S) (req : Request) (text : pystr),
    In (req, inr (Some text))
       (exchanges (run svc (build_report source_text summaries) s)) ->
    int (strip text) = None ->
    outcome (run svc (build_report source_text summaries) s)
      = inl ValueError_int /\
    outcome (run svc (evaluate_summaries source_text summaries) s)
      = inl ValueError_int.
Proof.
  intros S svc source_text summaries s req text Hin Hbad.
  rewrite build_report_exchanges, evaluate_summaries_exchanges in Hin.
  assert (Hev : outcome (run svc (evaluate_summaries source_text summaries) s)
                = inl ValueError_int).
  { apply evaluate_summaries_outcome_error.
    apply (run_score_all_unparsed svc source_text _ _ _ req (Some text));
      [exact Hin |].
    unfold parse_score. rewrite Hbad. reflexivity. }
  split; [apply build_report_outcome_error, Hev | exact Hev].
Qed.

Lemma unparsable_reply_fails_the_run_witness :
  int (strip (str "N/A")) = None /\
  List.length
    (exchanges (run fourth_fails (build_report cat_document cat_summaries) 0))
    = 4%nat /\
  outcome (run fourth_fails (build_report cat_document cat_summaries) 0)
    = inl ValueError_int.
Proof.
  split; [reflexivity |].
  split; [vm_compute; reflexivity |].
  apply (unparsable_reply_fails_the_run N fourth_fails cat_document
           cat_summaries 0
           (job_request cat_document
              (str "Coherence",
               {| criteria := Coherence_criteria; steps := Coherence_steps |},
               (str "Summary 2", str "A dog ran.")))
           (str "N/A")).
  - vm_compute. right. right. right. left. reflexivity.
  - reflexivity.
Defined.

(** ** C3 *)

(** C3 (what the code does). With the button pressed, a source text
    and both summary areas left blank, the mapping is empty, the gate
    lets the evaluation through, and the page is the results page and
    not the request to enter at least one summary;
    [evaluate_summaries] on the empty mapping is not rejected: it makes
    no call and returns a frame without rows. *)
Theorem empty_mapping_is_evaluated :
  collect_summaries [ []; [] ] = [] /\
  gate true cat_document [] = true /\
  page true cat_document [ []; [] ]
  = ResultsPage (build_report cat_document []) /\
  forall (S : Type) (svc : Service S) (s : S),
    run svc (evaluate_summaries cat_document []) s = (s, [], inr []).
Proof.
  repeat split.
Qed.

(** ** C4 *)

Lemma dropwhile_all (q : char -> bool) (ws r : pystr) :
  forallb q ws = true -> dropwhile q (ws ++ r) = dropwhile q r.
Proof.
  induction ws as [| c ws IH]; simpl; [reflexivity |].
  intros H. apply andb_true_iff in H. destruct H as [-> H]. auto.
Qed.

Lemma strip_between (ws1 ws2 mid : pystr) (a z : char) :
  forallb isspace ws1 = true -> forallb isspace ws2 = true ->
  isspace a = false -> isspace z = false ->
  strip (ws1 ++ (a :: mid ++ [z]) ++ ws2) = a :: mid ++ [z].
Proof.
  intros H1 H2 Ha Hz. unfold strip, lstrip, rstrip.
  rewrite dropwhile_all by exact H1. simpl. rewrite Ha.
  replace (rev (a :: (mid ++ [z]) ++ ws2))
    with (rev ws2 ++ (z :: rev mid ++ [a])).
  2:{ cbn [rev]. rewrite !List.rev_app_distr. simpl.
      rewrite <- !List.app_assoc. reflexivity. }
  rewrite dropwhile_all.
  2:{ apply forallb_forall. intros c Hc. apply in_rev in Hc.
      rewrite forallb_forall in H2. auto. }
  simpl. rewrite Hz. simpl.
  rewrite List.rev_app_distr, List.rev_involutive. reflexivity.
Qed.

Lemma digit_char_facts (d : N) :
  d < 10 ->
  isspace (digit_char d) = false /\ c_isspace (digit_char d) = false /\
  is_digit (digit_char d) = true /\ (digit_char d <? 128) = true /\
  (digit_char d =? 0x2b) = false /\ (digit_char d =? 0x2d) = false /\
  (digit_char d =? 0x5f) = false /\ digit_char d - 0x30 = d.
Proof.
  intros Hd.
  assert (Hcases : d = 0 \/ d = 1 \/ d = 2 \/ d = 3 \/ d = 4 \/
                   d = 5 \/ d = 6 \/ d = 7 \/ d = 8 \/ d = 9) by lia.
  repeat (destruct Hcases as [-> | Hcases]; [repeat split; reflexivity |]).
  subst d. repeat split; reflexivity.
Qed.

Lemma scan_digits_all (ds : list N) :
  Forall (fun d => d < 10) ds ->
  forall acc,
    scan_digits (map digit_char ds) false acc =
    Some (fold_left (fun a d => (10 * a + Z.of_N d)%Z) ds acc, []).
Proof.
  induction 1 as [| d ds Hd Hds IH]; intros acc; simpl; [reflexivity |].
  destruct (digit_char_facts d Hd) as (_ & _ & -> & _ & _ & _ & _ & ->).
  apply IH.
Qed.

Lemma long_from_string_plus (r : pystr) :
  long_from_string (0x2b :: r) = read_digits 1 r.
Proof. reflexivity. Qed.

Lemma long_from_string_minus (r : pystr) :
  long_from_string (0x2d :: r) = read_digits (-1) r.
Proof. reflexivity. Qed.

Lemma long_from_string_unsigned (c : char) (r : pystr) :
  c_isspace c = false -> (c =? 0x2b) = false -> (c =? 0x2d) = false ->
  long_from_string (c :: r) = read_digits 1 (c :: r).
Proof.
  intros Hsp Hplus Hminus. unfold long_from_string. cbn [dropwhile].
  rewrite Hsp, Hplus, Hminus. reflexivity.
Qed.

Lemma count_digits_all (ds : list N) :
  Forall (fun d => d < 10) ds ->
  count_digits (map digit_char ds) = N.of_nat (List.length ds).
Proof.
  induction 1 as [| d ds Hd Hds IH]; [reflexivity |].
  cbn [map count_digits List.length].
  destruct (digit_char_facts d Hd) as (_ & _ & -> & _).
  rewrite IH. lia.
Qed.

Lemma over_limit_spec (n : N) :
  over_limit n = negb (n <=? int_max_str_digits).
Proof.
  unfold over_limit, int_max_str_digits, max_str_digits_threshold.
  change (0 <? 4300) with true.
  destruct (N.ltb_spec 640 n), (N.ltb_spec 4300 n), (N.leb_spec n 4300);
    try reflexivity; lia.
Qed.

Lemma read_digits_all (sign : Z) (d : N) (ds : list N) :
  Forall (fun d => d < 10) (d :: ds) ->
  read_digits sign (map digit_char (d :: ds)) =
  if N.of_nat (List.length (d :: ds)) <=? int_max_str_digits
  then Some (sign * decimal_value (d :: ds))%Z else None.
Proof.
  intros Hds. unfold read_digits.
  rewrite (scan_digits_all (d :: ds) Hds).
  rewrite (count_digits_all (d :: ds) Hds), over_limit_spec.
  cbn [map dropwhile].
  inversion Hds as [| d' ds' Hd Hds']; subst.
  destruct (digit_char_facts d Hd) as (_ & _ & -> & _).
  destruct (_ <=? _); reflexivity.
Qed.

Lemma decimal_text_ascii (sg : Sign) (ds : list N) :
  Forall (fun d => d < 10) ds ->
  forallb (fun c => c <? 128) (decimal_text sg ds) = true.
Proof.
  intros Hds. unfold decimal_text. rewrite forallb_app.
  apply andb_true_iff. split; [destruct sg; reflexivity |].
  apply forallb_forall. intros c Hc. apply in_map_iff in Hc.
  destruct Hc as (x & <- & Hx). rewrite Forall_forall in Hds.
  apply digit_char_facts. auto.
Qed.

Lemma int_digits (sg : Sign) (d : N) (ds : list N) :
  Forall (fun d => d < 10) (d :: ds) ->
  int (decimal_text sg (d :: ds)) =
  if N.of_nat (List.length (d :: ds)) <=? int_max_str_digits
  then Some (sign_factor sg * decimal_value (d :: ds))%Z else None.
Proof.
  intros Hds. unfold int, transform_decimal_and_space.
  rewrite decimal_text_ascii by exact Hds.
  unfold decimal_text. destruct sg; cbn [sign_text app sign_factor].
  - inversion Hds as [| d' ds' Hd Hds']; subst.
    destruct (digit_char_facts d Hd)
      as (_ & Hsp & _ & _ & Hplus & Hminus & _ & _).
    cbn [map]. rewrite long_from_string_unsigned by assumption.
    apply (read_digits_all 1 d ds Hds).
  - rewrite long_from_string_plus. apply read_digits_all, Hds.
  - rewrite long_from_string_minus. apply read_digits_all, Hds.
Qed.

(** C4. A reply that is a decimal integer (an optional sign and at least
    one digit) with any white space before and after it is stripped and
    read in base 10: with at most 4300 digits it is scored as that
    integer, and with more digits [int] raises [ValueError]. *)
Theorem decimal_reply_score_up_to_the_limit :
  forall (ws1 ws2 : pystr) (sg : Sign) (ds : list N),
    forallb isspace ws1 = true -> forallb isspace ws2 = true ->
    ds <> [] -> Forall (fun d => d < 10) ds ->
    strip (ws1 ++ decimal_text sg ds ++ ws2) = decimal_text sg ds /\
    parse_score (Some (ws1 ++ decimal_text sg ds ++ ws2)) =
    if N.of_nat (List.length ds) <=? int_max_str_digits
    then inr (sign_factor sg * decimal_value ds)%Z
    else inl ValueError_int.
Proof.
  intros ws1 ws2 sg ds H1 H2 Hne Hds.
  assert (Hstrip : strip (ws1 ++ decimal_text sg ds ++ ws2)
                   = decimal_text sg ds).
  { destruct (exists_last Hne) as (ds0 & dz & ->).
    assert (Hz : isspace (digit_char dz) = false).
    { apply digit_char_facts. rewrite Forall_forall in Hds. apply Hds.
      apply in_or_app. right. left. reflexivity. }
    unfold decimal_text. rewrite List.map_app. cbn [map].
    destruct sg; cbn [sign_text app].
    - destruct ds0 as [| d0 ds0]; cbn [map app].
      + unfold strip, lstrip, rstrip.
        rewrite dropwhile_all by exact H1. cbn [app dropwhile].
        rewrite Hz. cbn [rev app].
        rewrite dropwhile_all.
        2:{ apply forallb_forall. intros c Hc. apply in_rev in Hc.
            rewrite forallb_forall in H2. auto. }
        cbn [dropwhile]. rewrite Hz. reflexivity.
      + apply strip_between; try assumption.
        apply digit_char_facts. rewrite Forall_forall in Hds. apply Hds.
        left. reflexivity.
    - apply (strip_between ws1 ws2 (map digit_char ds0) 0x2b (digit_char dz));
        try assumption. reflexivity.
    - apply (strip_between ws1 ws2 (map digit_char ds0) 0x2d (digit_char dz));
        try assumption. reflexivity. }
  split; [exact Hstrip |].
  unfold parse_score. rewrite Hstrip.
  destruct ds as [| d ds]; [congruence |].
  rewrite int_digits by exact Hds.
  destruct (_ <=? _); reflexivity.
Qed.

Lemma decimal_reply_score_up_to_the_limit_witness :
  [] ++ decimal_text NoSign [3] ++ [nl] = str "3" ++ [nl] /\
  parse_score (Some (str "3" ++ [nl])) = inr 3%Z.
Proof.
  split; [reflexivity |].
  exact (proj2 (decimal_reply_score_up_to_the_limit [] [nl] NoSign [3]
                  eq_refl eq_refl ltac:(discriminate)
                  ltac:(repeat constructor))).
Defined.

(** A reply of 4301 nines and a line end is a decimal integer with white
    space after it, yet it is not scored as that integer: [int] raises
    [ValueError].  With one nine fewer it is. *)
Lemma long_decimal_reply_is_rejected :
  forallb isspace [] = true /\ forallb isspace [nl] = true /\
  nines 4301 <> [] /\
  Forall (fun d => d < 10) (nines 4301) /\
  parse_score (Some ([] ++ decimal_text NoSign (nines 4301) ++ [nl])) =
  inl ValueError_int /\
  parse_score (Some ([] ++ decimal_text NoSign (nines 4301) ++ [nl])) <>
  inr (sign_factor NoSign * decimal_value (nines 4301))%Z /\
  parse_score (Some ([] ++ decimal_text NoSign (nines 4300) ++ [nl])) =
  inr (sign_factor NoSign * decimal_value (nines 4300))%Z.
Proof.
  assert (Hraise :
            parse_score
              (Some ([] ++ decimal_text NoSign (nines 4301) ++ [nl])) =
            inl ValueError_int) by (vm_compute; reflexivity).
  split; [reflexivity |]. split; [reflexivity |].
  split; [discriminate |].
  split; [apply Forall_forall; intros d Hd; apply repeat_spec in Hd; lia |].
  split; [exact Hraise |].
  split; [rewrite Hraise; discriminate |].
  vm_compute. reflexivity.
Qed.

(** ** C5 *)

(** C5. Against a service whose replies depend on the request alone,
    running the report builder a second time on the same document and
    mapping, from the store and the service state that the first run
    left behind, gives the same outcome and the same exchanges as the
    first run, and the global names are still bound as the module bound
    them: what the first run wrote, the lists of its [data], the second
    run does not read. *)
Theorem build_report_repeatable :
  forall (S : Type) (svc : Service S) (source_text : pystr)
         (summaries : dict pystr) (st : Store) (s : S),
    deterministic svc ->
    module_globals st ->
    let first :=
      exec svc (Stateful.build_report source_text summaries) st s in
    let second :=
      exec svc (Stateful.build_report source_text summaries)
        (left_store first) (left_state first) in
    outcome (observed second) = outcome (observed first) /\
    exchanges (observed second) = exchanges (observed first) /\
    module_globals (left_store second).
Proof.
  intros S svc source_text summaries st s Hdet Hg first second.
  destruct (exec_build_report svc source_text summaries st s Hg)
    as [H1 Hg1].
  fold first in H1, Hg1.
  destruct (exec_build_report svc source_text summaries
              (left_store first) (left_state first) Hg1) as [H2 Hg2].
  fold second in H2, Hg2.
  rewrite H1, H2.
  destruct (run_deterministic svc (build_report source_text summaries) Hdet
              (left_state first) s) as [Hex Hout].
  split; [exact Hout |]. split; [exact Hex | exact Hg2].
Qed.

Lemma build_report_repeatable_witness :
  deterministic counting_4 /\
  module_globals module_store /\
  left_state
    (exec counting_4 (Stateful.build_report cat_document cat_summaries)
       module_store 0) = 8 /\
  outcome
    (observed
       (exec counting_4 (Stateful.build_report cat_document cat_summaries)
          (left_store
             (exec counting_4
                (Stateful.build_report cat_document cat_summaries)
                module_store 0)) 8)) =
  outcome
    (observed
       (exec counting_4 (Stateful.build_report cat_document cat_summaries)
          module_store 0)).
Proof.
  assert (Hdet : deterministic counting_4) by (intros s1 s2 req; reflexivity).
  assert (Hg : module_globals module_store) by (split; reflexivity).
  split; [exact Hdet |].
  split; [exact Hg |].
  split; [vm_compute; reflexivity |].
  exact (proj1 (build_report_repeatable N counting_4 cat_document
                  cat_summaries module_store 0 Hdet Hg)).
Defined.

(** Without that assumption the reports of two runs can differ. *)
Lemma stateful_service_runs_differ :
  left_state
    (exec numbering (Stateful.build_report cat_document cat_summaries)
       module_store 0) = 8 /\
  outcome
    (observed
       (exec numbering (Stateful.build_report cat_document cat_summaries)
          (left_store
             (exec numbering
                (Stateful.build_report cat_document cat_summaries)
                module_store 0)) 8)) <>
  outcome
    (observed
       (exec numbering (Stateful.build_report cat_document cat_summaries)
          module_store 0)).
Proof. split; [vm_compute; reflexivity | vm_compute; discriminate]. Qed.

(** Nor does every script repeat: a report builder that kept the lists
    of [data] between its calls would give a report the first time and
    fail in the pivot the second time, on the rows of the first. *)
Lemma kept_data_runs_differ :
  deterministic (always (str "5")) /\
  module_globals store_with_data /\
  exists report,
    outcome (observed
      (exec (always (str "5"))
         (build_report_keeping_data cat_document cat_summaries)
         store_with_data tt)) = inr report /\
    outcome (observed
      (exec (always (str "5"))
         (build_report_keeping_data cat_document cat_summaries)
         (left_store
            (exec (always (str "5"))
               (build_report_keeping_data cat_document cat_summaries)
               store_with_data tt)) tt)) = inl ValueError_pivot.
Proof.
  split; [intros s1 s2 req; reflexivity |].
  split; [split; reflexivity |].
  eexists. split; vm_compute; reflexivity.
Qed.

(** ** C6 *)

(** C6. The metrics are visited in the order Relevance, Coherence,
    Consistency, Fluency and, within a metric, the summaries in the
    order of the mapping.  In every run of [evaluate_summaries] the
    requests made are, in order, those of an initial segment of that
    job sequence; when the run succeeds they are those of the whole
    sequence, and the rows returned are the jobs' (metric, label) pairs
    in the same order, each with the score parsed from the reply to its
    own call. *)
Theorem evaluate_summaries_metric_major :
  forall (S : Type) (svc : Service S) (source_text : pystr)
         (summaries : dict pystr) (s : S),
    let order := list_prod (items METRICS) (items summaries) in
    let log := exchanges (run svc (evaluate_summaries source_text summaries) s)
    in
    keys METRICS =
      [str "Relevance"; str "Coherence"; str "Consistency"; str "Fluency"] /\
    (exists done rest,
        order = done ++ rest /\
        map fst log = map (job_request source_text) done) /\
    (forall rows,
        outcome (run svc (evaluate_summaries source_text summaries) s)
          = inr rows ->
        map fst log = map (job_request source_text) order /\
        map row_key rows = map job_key order /\
        map row_key rows = list_prod (keys METRICS) (keys summaries) /\
        Forall2 (fun ex row => scored ex (row_score row)) log rows).
Proof.
  intros S svc source_text summaries s order log.
  split; [reflexivity |].
  split.
  - subst log. rewrite evaluate_summaries_exchanges.
    apply run_score_all_prefix.
  - intros rows Hout. subst log.
    destruct (run svc (evaluate_summaries source_text summaries) s)
      as [[s' log] out] eqn:Hrun.
    unfold outcome, exchanges in *. simpl in *. subst out.
    apply evaluate_summaries_ok in Hrun.
    destruct Hrun as (Hreq & vs & Hsc & Hlen & ->).
    split; [exact Hreq |].
    split; [apply rows_of_keys, Hlen |].
    split; [rewrite rows_of_keys by exact Hlen; apply job_keys_prod |].
    apply Forall2_map_right. rewrite rows_of_scores by exact Hlen.
    exact Hsc.
Qed.

Lemma evaluate_summaries_metric_major_witness :
  map row_key
    (match outcome (run numbering
                      (evaluate_summaries cat_document cat_summaries) 0) with
     | inr rows => rows
     | inl _ => []
     end) =
  [ (str "Relevance", str "Summary 1"); (str "Relevance", str "Summary 2");
    (str "Coherence", str "Summary 1"); (str "Coherence", str "Summary 2");
    (str "Consistency", str "Summary 1"); (str "Consistency", str "Summary 2");
    (str "Fluency", str "Summary 1"); (str "Fluency", str "Summary 2") ].
Proof.
  pose proof (evaluate_summaries_metric_major N numbering cat_document
                cat_summaries 0) as H.
  cbv zeta in H. destruct H as (_ & _ & H).
  destruct (outcome (run numbering
                       (evaluate_summaries cat_document cat_summaries) 0))
    as [e | rows] eqn:Hout.
  - vm_compute in Hout. discriminate.
  - destruct (H rows eq_refl) as (_ & _ & Hkeys & _).
    rewrite Hkeys. reflexivity.
Defined.

(** ** C7 *)

(** C7. Whatever the criteria, steps, document, summary and metric name
    are, [get_geval_score] makes exactly one request, whose only message
    is from the user and reads, line by line: the task description, the
    heading and the criteria, a blank line, the heading and the steps, a
    blank line, [Example:], [Source Text:] and the document, [Summary:]
    and the summary, and last [Evaluation Form (scores ONLY):] with the
    metric name as its single entry.  The values are copied as they are,
    braces included. *)
Theorem get_geval_score_prompt :
  forall (S : Type) (svc : Service S) (s : S)
         (criteria steps document summary metric_name : pystr),
    let prompt :=
      join [nl]
        [ [];
          str "You will be given one summary written for an article. Your task is to rate the summary on one metric.";
          str "Please make sure you read and understand these instructions very carefully. ";
          str "Please keep this document open while reviewing, and refer to it as needed.";
          [];
          str "Evaluation Criteria:";
          [];
          criteria;
          [];
          str "Evaluation Steps:";
          [];
          steps;
          [];
          str "Example:";
          [];
          str "Source Text:";
          [];
          document;
          [];
          str "Summary:";
          [];
          summary;
          [];
          str "Evaluation Form (scores ONLY):";
          [];
          str "- " ++ metric_name;
          [] ] in
    map fst
      (exchanges
         (run svc
            (get_geval_score criteria steps document summary metric_name) s))
    = [ {| model := str "gpt-4o-mini";
           messages := [ {| role := str "user"; content := prompt |} ];
           temperature := 0;
           max_tokens := 5;
           top_p := 1;
           frequency_penalty := 0;
           presence_penalty := 0 |} ].
Proof.
  intros S svc s criteria steps document summary metric_name prompt.
  unfold get_geval_score. rewrite make_prompt_text. cbn [lift bind run].
  fold (prompt_text criteria steps document summary metric_name) in prompt.
  fold (make_request prompt).
  unfold make_request, prompt.
  destruct (svc s _) as [s' [e | c]]; reflexivity.
Qed.

(** ** C8 *)

(** C8. In a run of [build_report] that succeeds, every reply is a text
    that [int] accepts once stripped, and the integer it denotes,
    whatever its size or sign, is the cell at the metric and label of
    the job the call was made for. *)
Theorem parsed_score_stored_unchanged :
  forall (S : Type) (svc : Service S) (source_text : pystr)
         (summaries : dict pystr) (s : S) (p : Pivot),
    outcome (run svc (build_report source_text summaries) s) = inr p ->
    Forall2 (fun j ex =>
               exists text n,
                 snd ex = inr (Some text) /\
                 int (strip text) = Some n /\
                 lookup_cell p (job_metric j) (job_label j) = Some n)
      (list_prod (items METRICS) (items summaries))
      (exchanges (run svc (build_report source_text summaries) s)).
Proof.
  intros S svc source_text summaries s p.
  destruct (run svc (build_report source_text summaries) s)
    as [[s' log] out] eqn:Hrun.
  unfold outcome, exchanges. simpl. intros ->.
  apply build_report_ok in Hrun.
  destruct Hrun as (Hreq & vs & Hsc & Hlen & Hp).
  fold (jobs summaries).
  apply Forall2_join
    with (P := scored)
         (Q := fun j v =>
                 lookup_cell p (job_metric j) (job_label j) = Some v)
         (lc := vs).
  - intros j ex v (c & Hc & Hparse) Hcell.
    destruct c as [text |]; [| discriminate].
    unfold parse_score in Hparse.
    destruct (int (strip text)) as [n |] eqn:Hint; [| discriminate].
    inversion Hparse; subst. exists text, v. auto.
  - exact Hsc.
  - apply pivot_cells_of_jobs; assumption.
Qed.

Lemma parsed_score_stored_unchanged_witness :
  outcome (run (always (str "7")) (build_report cat_document cat_summaries) tt)
    = inr all_7_report /\
  Forall2 (fun j ex =>
             exists text n,
               snd ex = inr (Some text) /\
               int (strip text) = Some n /\
               lookup_cell all_7_report (job_metric j) (job_label j) = Some n)
    (list_prod (items METRICS) (items cat_summaries))
    (exchanges
       (run (always (str "7")) (build_report cat_document cat_summaries) tt)).
Proof.
  split; [vm_compute; reflexivity |].
  apply (parsed_score_stored_unchanged unit (always (str "7")) cat_document
           cat_summaries tt all_7_report).
  vm_compute. reflexivity.
Defined.

(** ** C9 *)

(** A stub with one parseable answer: the pass over the jobs succeeds
    and every score is that answer's value. *)
Lemma run_score_all_always (text : pystr) (v : Z) source_text js :
  parse_score (Some text) = inr v ->
  forall data,
    run (always text) (score_all source_text js data) tt =
    (tt,
     map (fun j => (job_request source_text j, inr (Some text))) js,
     inr {| Evaluation_Type := Evaluation_Type data ++ map job_metric js;
            Summary_Type := Summary_Type data ++ map job_label js;
            Score := Score data ++ repeat v (List.length js) |}).
Proof.
  intros Hparse. induction js as [| j js IH]; intros data.
  - destruct data. simpl. rewrite !List.app_nil_r. reflexivity.
  - rewrite run_score_all_cons, run_score_job. cbv zeta.
    unfold always at 1, stub at 1. rewrite Hparse, IH.
    cbn [app map repeat List.length Evaluation_Type Summary_Type Score
         append_Evaluation_Type append_Summary_Type append_Score].
    rewrite <- !List.app_assoc. reflexivity.
Qed.

Lemma build_report_always (text : pystr) (v : Z) source_text summaries :
  parse_score (Some text) = inr v ->
  wf summaries ->
  exists p,
    run (always text) (build_report source_text summaries) tt =
    (tt,
     map (fun j => (job_request source_text j, inr (Some text)))
       (jobs summaries),
     inr p) /\
    pivot (rows_of (jobs summaries)
             (repeat v (List.length (jobs summaries)))) = inr p.
Proof.
  intros Hparse Hwf.
  destruct (pivot_rows_of summaries
              (repeat v (List.length (jobs summaries))) Hwf
              (List.repeat_length _ _)) as [p Hp].
  exists p. split; [| exact Hp].
  rewrite run_build_report, run_evaluate_summaries.
  rewrite (run_score_all_always text v source_text _ Hparse).
  cbn [Evaluation_Type Summary_Type Score empty_data app].
  rewrite DataFrame_rows_of by apply List.repeat_length.
  rewrite Hp. reflexivity.
Qed.

(** With one answer for every call, every cell holds its value. *)
Lemma always_report (text : pystr) (v : Z) source_text summaries :
  parse_score (Some text) = inr v ->
  wf summaries -> summaries <> [] ->
  exists p,
    outcome (run (always text) (build_report source_text summaries) tt)
      = inr p /\
    List.length
      (exchanges (run (always text) (build_report source_text summaries) tt))
      = (4 * List.length summaries)%nat /\
    cells p = repeat (repeat (Some v) (List.length summaries)) 4 /\
    Permutation (index p) (keys METRICS) /\
    Permutation (columns p) (keys summaries).
Proof.
  intros Hparse Hwf Hne.
  destruct (build_report_always text v source_text summaries Hparse Hwf)
    as (p & Hrun & Hp).
  exists p. rewrite Hrun. unfold outcome, exchanges. cbn [fst snd].
  split; [reflexivity |].
  split.
  { rewrite List.length_map. unfold jobs, items.
    etransitivity; [apply List.length_prod | reflexivity]. }
  set (n := List.length (jobs summaries)) in *.
  assert (Hlen : List.length (repeat v n) = List.length (jobs summaries))
    by apply List.repeat_length.
  assert (Hkeys : map row_key (rows_of (jobs summaries) (repeat v n)) =
                  list_prod (keys METRICS) (keys summaries))
    by (rewrite rows_of_keys by exact Hlen; apply job_keys_prod).
  assert (Hkne : keys summaries <> [])
    by (destruct summaries; [congruence | discriminate]).
  assert (Hmne : keys METRICS <> []) by discriminate.
  destruct (pivot_shape _ _ _ _ NoDup_keys_METRICS Hwf Hkne Hmne Hkeys Hp)
    as (Hpi & Hpc & Hlc & Hcells).
  split; [| split; assumption].
  assert (Hlines : Forall (eq (repeat (Some v) (List.length summaries)))
                     (cells p)).
  { eapply Forall_impl; [| exact Hcells].
    intros line [Hl Hc].
    assert (Hall : Forall (eq (Some v)) line).
    { eapply Forall_impl; [| exact Hc].
      intros c (r & Hin & ->). f_equal.
      apply (in_map row_score) in Hin.
      rewrite rows_of_scores in Hin by exact Hlen.
      apply repeat_spec in Hin. congruence. }
    apply Forall_eq_repeat in Hall. rewrite Hall. f_equal.
    rewrite Hl. symmetry. apply List.length_map. }
  apply Forall_eq_repeat in Hlines. rewrite Hlines. f_equal. exact Hlc.
Qed.

(** C9. For the document ["The cat sat on the mat."] and the summaries
    ["A cat sat."] and ["A dog ran."], under any two distinct labels,
    [build_report] against a stub that answers ["5"] to every call
    makes 8 calls and returns a table of 4 rows, one for each metric,
    and 2 columns, one for each label, whose 8 cells are all 5. *)
Theorem cat_report_all_fives :
  forall (label1 label2 : pystr),
    label1 <> label2 ->
    let summaries :=
      [ (label1, str "A cat sat."); (label2, str "A dog ran.") ] in
    let r :=
      run (always (str "5"))
        (build_report (str "The cat sat on the mat.") summaries) tt in
    List.length (exchanges r) = 8%nat /\
    exists p,
      outcome r = inr p /\
      cells p = [ [Some 5; Some 5]; [Some 5; Some 5];
                  [Some 5; Some 5]; [Some 5; Some 5] ]%Z /\
      Permutation (index p) (keys METRICS) /\
      Permutation (columns p) [label1; label2].
Proof.
  intros label1 label2 Hneq summaries r.
  assert (Hwf : wf summaries).
  { unfold wf, summaries. simpl. repeat constructor; simpl; intuition. }
  destruct (always_report (str "5") 5%Z (str "The cat sat on the mat.")
              summaries eq_refl Hwf ltac:(discriminate))
    as (p & Hout & Hcalls & Hcells & Hpi & Hpc).
  split; [exact Hcalls |].
  exists p. repeat split; assumption.
Qed.

Lemma cat_report_all_fives_witness :
  str "Summary 1" <> str "Summary 2" /\
  exists p,
    outcome (run (always (str "5"))
               (build_report (str "The cat sat on the mat.")
                  (collect_summaries [str "A cat sat."; str "A dog ran."]))
               tt) = inr p /\
    cells p = [ [Some 5; Some 5]; [Some 5; Some 5];
                [Some 5; Some 5]; [Some 5; Some 5] ]%Z.
Proof.
  split; [discriminate |].
  destruct (cat_report_all_fives (str "Summary 1") (str "Summary 2")
              ltac:(discriminate)) as (_ & p & Hout & Hcells & _).
  exists p. split; [exact Hout | exact Hcells].
Defined.

(** ** C10 *)

Lemma str_inj (a b : string) : str a = str b -> a = b.
Proof.
  revert b. induction a as [| x a IH]; intros [| y b] H; simpl in H;
    try discriminate; [reflexivity |].
  inversion H as [[Hc Hr]]. f_equal; [| auto].
  rewrite <- (ascii_N_embedding x), <- (ascii_N_embedding y), Hc.
  reflexivity.
Qed.

Lemma str_of_N_inj (n m : N) : str_of_N n = str_of_N m -> n = m.
Proof.
  unfold str_of_N. intros H. apply str_inj in H.
  assert (Hnn : forall k, N.to_uint k <> Decimal.Nil).
  { intros [| q]; [discriminate | apply DecimalPos.Unsigned.to_uint_nonnil]. }
  apply (f_equal DecimalString.NilZero.uint_of_string) in H.
  rewrite !DecimalString.NilZero.usu in H by apply Hnn.
  inversion H as [H']. apply DecimalN.Unsigned.to_uint_inj, H'.
Qed.

Lemma summary_label_inj (i j : nat) :
  summary_label i = summary_label j -> i = j.
Proof.
  unfold summary_label. intros H. apply List.app_inv_head in H.
  apply str_of_N_inj in H. lia.
Qed.

Lemma dict_set_new {V} (d : dict V) (k : pystr) (v : V) :
  ~ In k (keys d) -> dict_set d k v = d ++ [(k, v)].
Proof.
  induction d as [| [k' v'] d IH]; simpl; intros Hnotin; [reflexivity |].
  destruct (PyStr.eqb k' k) eqn:Heq.
  - apply eqb_eq in Heq. tauto.
  - rewrite IH by tauto. reflexivity.
Qed.

Lemma nonblank_keys (texts : list pystr) :
  forall i k, In k (keys (nonblank_from i texts)) ->
    exists j, (i <= j)%nat /\ k = summary_label j.
Proof.
  induction texts as [| t rest IH]; intros i k Hin; [destruct Hin |].
  simpl in Hin. destruct (truthy t).
  - destruct Hin as [<- | Hin]; [exists i; split; [lia | reflexivity] |].
    destruct (IH _ _ Hin) as (j & Hj & ->). exists j. split; [lia | auto].
  - destruct (IH _ _ Hin) as (j & Hj & ->). exists j. split; [lia | auto].
Qed.

Lemma collect_from_nonblank (texts : list pystr) :
  forall i d,
    (forall k, In k (keys d) -> exists j, (j < i)%nat /\ k = summary_label j) ->
    collect_from i texts d = d ++ nonblank_from i texts.
Proof.
  induction texts as [| t rest IH]; intros i d Hd; simpl.
  - rewrite List.app_nil_r. reflexivity.
  - destruct (truthy t).
    + rewrite dict_set_new.
      2:{ intros Hin. destruct (Hd _ Hin) as (j & Hj & Heq).
          apply summary_label_inj in Heq. lia. }
      rewrite IH.
      * rewrite <- List.app_assoc. reflexivity.
      * intros k Hin. unfold keys in Hin. rewrite List.map_app in Hin.
        apply in_app_or in Hin. destruct Hin as [Hin | [<- | []]].
        -- destruct (Hd _ Hin) as (j & Hj & ->). exists j. split; [lia | auto].
        -- exists i. split; [lia | reflexivity].
    + apply IH. intros k Hin.
      destruct (Hd _ Hin) as (j & Hj & ->). exists j. split; [lia | auto].
Qed.

Lemma nonblank_wf (texts : list pystr) : forall i, wf (nonblank_from i texts).
Proof.
  unfold wf. induction texts as [| t rest IH]; intros i; simpl.
  - constructor.
  - destruct (truthy t); [| apply IH].
    simpl. constructor; [| apply IH].
    intros Hin. apply nonblank_keys in Hin. destruct Hin as (j & Hj & Heq).
    apply summary_label_inj in Heq. lia.
Qed.

Lemma nonblank_values (texts : list pystr) :
  forall i, values (nonblank_from i texts) = filter truthy texts.
Proof.
  induction texts as [| t rest IH]; intros i; simpl; [reflexivity |].
  destruct (truthy t); simpl; rewrite IH; reflexivity.
Qed.

(** The number of columns of a report is the size of the mapping. *)
Lemma build_report_columns {S} (svc : Service S) source_text summaries s p :
  wf summaries ->
  outcome (run svc (build_report source_text summaries) s) = inr p ->
  List.length (columns p) = List.length summaries.
Proof.
  intros Hwf.
  destruct (run svc (build_report source_text summaries) s)
    as [[s' log] out] eqn:Hrun.
  unfold outcome. simpl. intros ->.
  apply build_report_ok in Hrun.
  destruct Hrun as (_ & vs & _ & Hlen & Hp).
  destruct summaries as [| kv summaries].
  - destruct vs; [| discriminate]. inversion Hp. reflexivity.
  - assert (Hkeys : map row_key (rows_of (jobs (kv :: summaries)) vs) =
                    list_prod (keys METRICS) (keys (kv :: summaries)))
      by (rewrite rows_of_keys by exact Hlen; apply job_keys_prod).
    destruct (pivot_shape _ _ _ _ NoDup_keys_METRICS Hwf
                ltac:(discriminate) ltac:(discriminate) Hkeys Hp)
      as (_ & Hpc & _).
    apply Permutation_length in Hpc. rewrite Hpc. apply List.length_map.
Qed.

(** C10. The mapping handed to the evaluation holds exactly the
    non-blank texts, in the order of their areas and under the labels of
    their areas; a blank area adds no entry and raises nothing.  The
    test over the mapping's values in the gate always holds, so the
    gate reduces to the button and the source text, and with both the
    page is the results page for that mapping.  A report built from it
    has as many columns as there are non-blank texts, which is at most
    the number of areas. *)
Theorem blank_summaries_are_left_out :
  forall (texts : list pystr),
    let summaries := collect_summaries texts in
    summaries = nonblank_from 0 texts /\
    values summaries = filter truthy texts /\
    wf summaries /\
    forallb truthy (values summaries) = true /\
    (forall button source_text,
        gate button source_text summaries = button && truthy source_text) /\
    (forall source_text,
        truthy source_text = true ->
        page true source_text texts
        = ResultsPage (build_report source_text summaries)) /\
    (forall (S : Type) (svc : Service S) (s : S) source_text p,
        outcome (run svc (build_report source_text summaries) s) = inr p ->
        List.length (columns p) = List.length (filter truthy texts)) /\
    (List.length (filter truthy texts) <= List.length texts)%nat.
Proof.
  intros texts summaries.
  assert (Heq : summaries = nonblank_from 0 texts).
  { unfold summaries, collect_summaries.
    rewrite collect_from_nonblank; [reflexivity |].
    intros k []. }
  assert (Hvals : values summaries = filter truthy texts)
    by (rewrite Heq; apply nonblank_values).
  assert (Hwf : wf summaries) by (rewrite Heq; apply nonblank_wf).
  assert (Hall : forallb truthy (values summaries) = true).
  { rewrite Hvals. apply forallb_forall. intros t Ht.
    apply filter_In in Ht. tauto. }
  split; [exact Heq |]. split; [exact Hvals |]. split; [exact Hwf |].
  split; [exact Hall |].
  split.
  { intros button source_text. unfold gate. rewrite Hall.
    apply andb_true_r. }
  split.
  { intros source_text Hdoc. unfold page. fold summaries.
    unfold gate. rewrite Hall, Hdoc. reflexivity. }
  split.
  { intros S svc s source_text p Hout.
    rewrite (build_report_columns svc source_text summaries s p Hwf Hout).
    rewrite <- Hvals. symmetry. apply List.length_map. }
  apply List.filter_length_le.
Qed.

Lemma blank_summaries_are_left_out_witness :
  collect_summaries [str "A cat sat."; []; str "A dog ran."] =
  [ (str "Summary 1", str "A cat sat.");
    (str "Summary 3", str "A dog ran.") ] /\
  page true cat_document [str "A cat sat."; []; str "A dog ran."] =
  ResultsPage
    (build_report cat_document
       (collect_summaries [str "A cat sat."; []; str "A dog ran."])).
Proof.
  split; [reflexivity |].
  exact (proj1 (proj2 (proj2 (proj2 (proj2 (proj2
           (blank_summaries_are_left_out
              [str "A cat sat."; []; str "A dog ran."]))))))
           cat_document eq_refl).
Defined.

(* ================================================================== *)
(** * Further properties *)

(** ** How a run ends *)

Section Endings.

Context {S : Type} (svc : Service S).

Ltac step_one source_text j data s :=
  rewrite run_score_all_cons, run_score_job; cbv zeta;
  let s1 := fresh "s1" in
  let e := fresh "e" in
  let c := fresh "c" in
  let v := fresh "v" in
  let Hc := fresh "Hparse" in
  destruct (svc s (job_request source_text j)) as [s1 [e | c]] eqn:Hsvc;
  [ | destruct (parse_score c) as [e | v] eqn:Hc ].

(** A pass that fails: the failing exchange is the last one, and every
    exchange before it was scored. *)
Lemma run_score_all_failure source_text js :
  forall data s e,
    outcome (run svc (score_all source_text js data) s) = inl e ->
    exists earlier req reply,
      exchanges (run svc (score_all source_text js data) s)
        = earlier ++ [(req, reply)] /\
      Forall (fun ex => exists v, scored ex v) earlier /\
      (reply = inl e \/ exists c, reply = inr c /\ parse_score c = inl e).
Proof.
  induction js as [| j js IH]; intros data s e0.
  - discriminate.
  - step_one source_text j data s.
    + unfold outcome, exchanges. simpl. intros Heq. inversion Heq; subst.
      exists [], (job_request source_text j), (inl e0).
      repeat split; [constructor | left; reflexivity].
    + unfold outcome, exchanges. simpl. intros Heq. inversion Heq; subst.
      exists [], (job_request source_text j), (inr c).
      repeat split; [constructor | right; exists c; auto].
    + match goal with
      | |- context [run svc (score_all source_text js ?d) s1] =>
          specialize (IH d s1 e0);
          destruct (run svc (score_all source_text js d) s1)
            as [[s2 log2] out]
      end.
      unfold outcome, exchanges in *. simpl in *. intros Hout.
      destruct (IH Hout) as (earlier & req & reply & Hlog & Hall & Hwhy).
      exists ((job_request source_text j, inr c) :: earlier), req, reply.
      split; [rewrite Hlog; reflexivity |].
      split; [| exact Hwhy].
      constructor; [| exact Hall].
      exists v, c. split; [reflexivity | exact Hparse].
Qed.

(** A pass against a service whose replies all parse succeeds. *)
Lemma run_score_all_succeeds source_text js :
  (forall s req, exists c v, snd (svc s req) = inr c /\ parse_score c = inr v) ->
  forall data s,
    exists s' log data',
      run svc (score_all source_text js data) s = (s', log, inr data').
Proof.
  intros Hsvc. induction js as [| j js IH]; intros data s.
  - exists s, [], data. reflexivity.
  - rewrite run_score_all_cons, run_score_job. cbv zeta.
    destruct (Hsvc s (job_request source_text j)) as (c & v & Hc & Hp).
    destruct (svc s (job_request source_text j)) as [s1 reply].
    simpl in Hc. subst reply. rewrite Hp.
    match goal with
    | |- context [run svc (score_all source_text js ?d) s1] =>
        destruct (IH d s1) as (s' & log & data' & ->)
    end.
    eexists _, _, _. reflexivity.
Qed.

(** The frame is always built from what a successful pass leaves. *)
Lemma evaluate_summaries_fails_in_the_pass source_text summaries s e :
  outcome (run svc (evaluate_summaries source_text summaries) s) = inl e ->
  outcome (run svc (score_all source_text (jobs summaries) empty_data) s)
    = inl e.
Proof.
  rewrite run_evaluate_summaries.
  destruct (run svc (score_all source_text (jobs summaries) empty_data) s)
    as [[s1 log1] [e1 | data]] eqn:Hrun;
    [unfold outcome; simpl; congruence |].
  apply run_score_all_ok in Hrun.
  destruct Hrun as (He & Hs & Hreq & vs & Hv & Hsc). simpl in He, Hs, Hv.
  assert (Hlen : List.length vs = List.length (jobs summaries)).
  { pose proof (Forall2_length Hsc) as H1.
    pose proof (f_equal (@List.length _) Hreq) as H2.
    rewrite !List.length_map in H2.
    etransitivity; [symmetry; exact H1 | exact H2]. }
  destruct data as [ev su sc]. simpl in *. subst ev su sc.
  rewrite DataFrame_rows_of by exact Hlen. discriminate.
Qed.

End Endings.

(** X2. If a reply carries no content ([None]), the call of [strip] on
    it raises [AttributeError], and the run ends with that exception
    and without a report. *)
Theorem missing_content_ends_the_run :
  forall (S : Type) (svc : Service S) (source_text : pystr)
         (summaries : dict pystr) (s : S) (req : Request),
    In (req, inr None)
       (exchanges (run svc (build_report source_text summaries) s)) ->
    outcome (run svc (build_report source_text summaries) s)
      = inl AttributeError_strip /\
    outcome (run svc (evaluate_summaries source_text summaries) s)
      = inl AttributeError_strip.
Proof.
  intros S svc source_text summaries s req Hin.
  rewrite build_report_exchanges, evaluate_summaries_exchanges in Hin.
  assert (Hev : outcome (run svc (evaluate_summaries source_text summaries) s)
                = inl AttributeError_strip).
  { apply evaluate_summaries_outcome_error.
    apply (run_score_all_unparsed svc source_text _ _ _ req None);
      [exact Hin | reflexivity]. }
  split; [apply build_report_outcome_error, Hev | exact Hev].
Qed.

Lemma missing_content_ends_the_run_witness :
  List.length
    (exchanges (run third_is_none (build_report cat_document cat_summaries) 0))
    = 3%nat /\
  outcome (run third_is_none (build_report cat_document cat_summaries) 0)
    = inl AttributeError_strip.
Proof.
  split; [vm_compute; reflexivity |].
  apply (missing_content_ends_the_run N third_is_none cat_document
           cat_summaries 0
           (job_request cat_document
              (str "Coherence",
               {| criteria := Coherence_criteria; steps := Coherence_steps |},
               (str "Summary 1", str "A cat sat.")))).
  vm_compute. right. right. left. reflexivity.
Defined.

(** X3. Against a service, stateful or not, each of whose replies is a
    text that [int] accepts once stripped, [build_report] on a
    well-formed mapping of N summaries returns a report, after exactly
    4 * N calls. *)
Theorem parseable_replies_give_a_report :
  forall (S : Type) (svc : Service S) (source_text : pystr)
         (summaries : dict pystr) (s : S),
    wf summaries ->
    (forall s' req, exists text n,
        snd (svc s' req) = inr (Some text) /\ int (strip text) = Some n) ->
    exists p,
      outcome (run svc (build_report source_text summaries) s) = inr p /\
      List.length (exchanges (run svc (build_report source_text summaries) s))
      = (4 * List.length summaries)%nat.
Proof.
  intros S svc source_text summaries s Hwf Hsvc.
  assert (Hsvc' : forall s' req, exists c v,
             snd (svc s' req) = inr c /\ parse_score c = inr v).
  { intros s' req. destruct (Hsvc s' req) as (text & n & Hr & Hi).
    exists (Some text), n. split; [exact Hr |].
    unfold parse_score. rewrite Hi. reflexivity. }
  destruct (run svc (evaluate_summaries source_text summaries) s)
    as [[s1 log1] [e | rows]] eqn:Hev.
  - exfalso.
    assert (Hout : outcome (run svc (evaluate_summaries source_text summaries)
                              s) = inl e) by (rewrite Hev; reflexivity).
    apply evaluate_summaries_fails_in_the_pass in Hout.
    destruct (run_score_all_succeeds svc source_text (jobs summaries) Hsvc'
                empty_data s) as (s' & log & data' & Hrun).
    rewrite Hrun in Hout. discriminate.
  - pose proof Hev as Hok. apply evaluate_summaries_ok in Hok.
    destruct Hok as (Hreq & vs & Hsc & Hlen & ->).
    destruct (pivot_rows_of summaries vs Hwf Hlen) as [p Hp].
    exists p. rewrite run_build_report, Hev, Hp.
    unfold outcome, exchanges. simpl. split; [reflexivity |].
    apply (f_equal (@List.length _)) in Hreq.
    rewrite !List.length_map in Hreq.
    etransitivity; [exact Hreq |].
    unfold jobs, items.
    etransitivity; [apply List.length_prod | reflexivity].
Qed.

Lemma parseable_replies_give_a_report_witness :
  exists p,
    outcome (run counting_4 (build_report cat_document cat_summaries) 0)
      = inr p /\
    List.length
      (exchanges (run counting_4 (build_report cat_document cat_summaries) 0))
    = 8%nat.
Proof.
  apply (parseable_replies_give_a_report N counting_4 cat_document
           cat_summaries 0 wf_cat_summaries).
  intros s' req. exists (str "4"), 4%Z. split; reflexivity.
Defined.

(** X4. When [evaluate_summaries] fails, the exchange that made it fail
    is the last one of the run: every call before it was answered and
    scored, no call follows it, and the exception is either the one the
    service raised or the one raised while reading the reply.  Building
    the prompt and building the frame never fail. *)
Theorem failure_is_the_last_exchange :
  forall (S : Type) (svc : Service S) (source_text : pystr)
         (summaries : dict pystr) (s : S) (e : exn),
    outcome (run svc (evaluate_summaries source_text summaries) s) = inl e ->
    exists earlier req reply,
      exchanges (run svc (evaluate_summaries source_text summaries) s)
        = earlier ++ [(req, reply)] /\
      Forall (fun ex => exists v, scored ex v) earlier /\
      (reply = inl e \/ exists c, reply = inr c /\ parse_score c = inl e).
Proof.
  intros S svc source_text summaries s e Hout.
  rewrite evaluate_summaries_exchanges.
  apply run_score_all_failure.
  apply evaluate_summaries_fails_in_the_pass. exact Hout.
Qed.

Lemma failure_is_the_last_exchange_witness :
  outcome (run fourth_fails (evaluate_summaries cat_document cat_summaries) 0)
    = inl ValueError_int /\
  exists earlier req reply,
    exchanges
      (run fourth_fails (evaluate_summaries cat_document cat_summaries) 0)
      = earlier ++ [(req, reply)] /\
    List.length earlier = 3%nat /\
    reply = inr (Some (str "N/A")).
Proof.
  split; [vm_compute; reflexivity |].
  destruct (failure_is_the_last_exchange N fourth_fails cat_document
              cat_summaries 0 ValueError_int ltac:(vm_compute; reflexivity))
    as (earlier & req & reply & Hlog & _ & _).
  exists earlier, req, reply. split; [exact Hlog |].
  assert (Hlen : List.length
            (exchanges (run fourth_fails
                          (evaluate_summaries cat_document cat_summaries) 0))
          = 4%nat) by (vm_compute; reflexivity).
  assert (Hlast : last
            (exchanges (run fourth_fails
                          (evaluate_summaries cat_document cat_summaries) 0))
            (job_request cat_document
               (str "Relevance",
                {| criteria := Relevance_criteria;
                   steps := Relevance_steps |},
                (str "Summary 1", str "A cat sat.")), inl ValueError_int)
          = (job_request cat_document
               (str "Coherence",
                {| criteria := Coherence_criteria;
                   steps := Coherence_steps |},
                (str "Summary 2", str "A dog ran.")),
             inr (Some (str "N/A")))) by (vm_compute; reflexivity).
  rewrite Hlog in Hlen, Hlast.
  rewrite List.length_app in Hlen. simpl in Hlen.
  rewrite List.last_last in Hlast.
  split; [lia | congruence].
Defined.

(** X7. For a well-formed mapping the reshaping never fails: whenever
    [evaluate_summaries] returns a frame, [pivot] turns it into a
    table and [build_report] returns that table; so [build_report]
    fails exactly when [evaluate_summaries] does, with the same
    exception. *)
Theorem pivot_of_a_frame_never_fails :
  forall (S : Type) (svc : Service S) (source_text : pystr)
         (summaries : dict pystr) (s : S),
    wf summaries ->
    (forall rows,
        outcome (run svc (evaluate_summaries source_text summaries) s)
          = inr rows ->
        exists p,
          pivot rows = inr p /\
          outcome (run svc (build_report source_text summaries) s) = inr p) /\
    (forall e,
        outcome (run svc (build_report source_text summaries) s) = inl e <->
        outcome (run svc (evaluate_summaries source_text summaries) s)
          = inl e).
Proof.
  intros S svc source_text summaries s Hwf.
  rewrite run_build_report.
  destruct (run svc (evaluate_summaries source_text summaries) s)
    as [[s1 log1] [e1 | rows]] eqn:Hev; unfold outcome; simpl.
  - split; [discriminate |].
    intros e. split; intros H; inversion H; reflexivity.
  - pose proof Hev as Hok. apply evaluate_summaries_ok in Hok.
    destruct Hok as (_ & vs & _ & Hlen & ->).
    destruct (pivot_rows_of summaries vs Hwf Hlen) as [p Hp].
    rewrite Hp. split.
    + intros rows Heq. inversion Heq; subst. exists p. split; [exact Hp |].
      reflexivity.
    + intros e. split; discriminate.
Qed.

Lemma pivot_of_a_frame_never_fails_witness :
  exists p,
    outcome (run numbering (build_report cat_document cat_summaries) 0)
    = inr p.
Proof.
  destruct (proj1 (pivot_of_a_frame_never_fails N numbering cat_document
                     cat_summaries 0 wf_cat_summaries)
              (match outcome (run numbering
                                (evaluate_summaries cat_document
                                   cat_summaries) 0) with
               | inr rows => rows
               | inl _ => []
               end) ltac:(vm_compute; reflexivity)) as (p & _ & Hp).
  exists p. exact Hp.
Defined.

(** ** How a reply is read *)

Lemma dropwhile_app_cases (q : char -> bool) (t w : pystr) :
  dropwhile q (t ++ w) =
  if forallb q t then dropwhile q w else dropwhile q t ++ w.
Proof.
  induction t as [| c t IH]; simpl; [reflexivity |].
  destruct (q c); simpl; [exact IH | reflexivity].
Qed.

Lemma dropwhile_all_nil (q : char -> bool) (ws : pystr) :
  forallb q ws = true -> dropwhile q ws = [].
Proof.
  intros H. rewrite <- (List.app_nil_r ws), dropwhile_all by exact H.
  reflexivity.
Qed.

Lemma forallb_rev (q : char -> bool) (ws : pystr) :
  forallb q ws = true -> forallb q (rev ws) = true.
Proof.
  intros H. apply forallb_forall. intros c Hc. apply in_rev in Hc.
  rewrite forallb_forall in H. auto.
Qed.

Lemma rstrip_padding (t ws : pystr) :
  forallb isspace ws = true -> rstrip (t ++ ws) = rstrip t.
Proof.
  intros H. unfold rstrip. rewrite List.rev_app_distr.
  rewrite dropwhile_all by (apply forallb_rev, H). reflexivity.
Qed.

Lemma strip_padding (ws1 ws2 text : pystr) :
  forallb isspace ws1 = true -> forallb isspace ws2 = true ->
  strip (ws1 ++ text ++ ws2) = strip text.
Proof.
  intros H1 H2. unfold strip, lstrip.
  rewrite dropwhile_all by exact H1. rewrite dropwhile_app_cases.
  destruct (forallb isspace text) eqn:Ht.
  - rewrite (dropwhile_all_nil _ _ H2), (dropwhile_all_nil _ _ Ht).
    reflexivity.
  - apply rstrip_padding, H2.
Qed.

Lemma In_dropwhile (q : char -> bool) (s : pystr) (c : char) :
  In c s -> q c = false -> In c (dropwhile q s).
Proof.
  induction s as [| x s IH]; intros Hin Hc; [destruct Hin |].
  simpl. destruct (q x) eqn:Hx; [| exact Hin].
  destruct Hin as [-> | Hin]; [congruence | auto].
Qed.

Lemma In_strip (s : pystr) (c : char) :
  In c s -> isspace c = false -> In c (strip s).
Proof.
  intros Hin Hc. unfold strip, rstrip, lstrip.
  apply in_rev. rewrite List.rev_involutive.
  apply In_dropwhile; [| exact Hc].
  apply in_rev. rewrite List.rev_involutive.
  apply In_dropwhile; assumption.
Qed.

Lemma dropwhile_split (q : char -> bool) (s : pystr) :
  exists pre, s = pre ++ dropwhile q s /\ forallb q pre = true.
Proof.
  induction s as [| x s (pre & Hs & Hpre)]; [exists []; auto |].
  simpl. destruct (q x) eqn:Hx.
  - exists (x :: pre). simpl. rewrite Hx, Hpre. split; [congruence | auto].
  - exists []. auto.
Qed.

Lemma dropwhile_nil_forallb (q : char -> bool) (s : pystr) :
  dropwhile q s = [] -> forallb q s = true.
Proof.
  intros H. destruct (dropwhile_split q s) as (pre & Hs & Hpre).
  rewrite H, List.app_nil_r in Hs. subst. exact Hpre.
Qed.

Lemma scan_digits_chars (s : pystr) :
  forall prev_us acc v rest,
    scan_digits s prev_us acc = Some (v, rest) ->
    exists pre,
      s = pre ++ rest /\
      forallb (fun c => is_digit c || (c =? 0x5f)) pre = true.
Proof.
  induction s as [| c s IH]; intros prev_us acc v rest H; simpl in H.
  - destruct prev_us; [discriminate |]. inversion H; subst.
    exists []. auto.
  - destruct (is_digit c) eqn:Hd.
    + apply IH in H. destruct H as (pre & -> & Hpre).
      exists (c :: pre). simpl. rewrite Hd, Hpre. auto.
    + destruct (c =? 0x5f) eqn:Hu.
      * destruct prev_us; [discriminate |].
        apply IH in H. destruct H as (pre & -> & Hpre).
        exists (c :: pre). simpl. rewrite Hd, Hu, Hpre. auto.
      * destruct prev_us; [discriminate |]. inversion H; subst.
        exists []. auto.
Qed.

(** Every character of a text that [PyLong_FromString] accepts is a
    digit, white space, a sign or an underscore. *)
Lemma long_from_string_chars (t : pystr) (v : Z) :
  long_from_string t = Some v -> forallb score_char t = true.
Proof.
  unfold long_from_string.
  destruct (dropwhile_split c_isspace t) as (pre & Ht & Hpre).
  set (s1 := dropwhile c_isspace t) in *.
  assert (Hpre' : forall x, In x pre -> score_char x = true).
  { intros x Hx. rewrite forallb_forall in Hpre. unfold score_char.
    rewrite (Hpre x Hx). destruct (is_digit x); reflexivity. }
  assert (Hbody : forall sign s2,
             match s2 with
             | [] => None
             | c :: _ =>
                 if is_digit c then
                   match scan_digits s2 false 0%Z with
                   | Some (v, rest) =>
                       if over_limit (count_digits s2) then None
                       else
                         match dropwhile c_isspace rest with
                         | [] => Some (sign * v)%Z
                         | _ :: _ => None
                         end
                   | None => None
                   end
                 else None
             end = Some v ->
             forall x, In x s2 -> score_char x = true).
  { intros sign s2 H x Hx. destruct s2 as [| c0 r0]; [discriminate |].
    destruct (is_digit c0); [| discriminate].
    destruct (scan_digits (c0 :: r0) false 0%Z) as [[v' rest] |] eqn:Hscan;
      [| discriminate].
    destruct (over_limit (count_digits (c0 :: r0))); [discriminate |].
    destruct (dropwhile c_isspace rest) eqn:Hrest; [| discriminate].
    apply dropwhile_nil_forallb in Hrest.
    apply scan_digits_chars in Hscan. destruct Hscan as (pre2 & Heq & Hpre2).
    rewrite Heq in Hx. apply in_app_or in Hx. unfold score_char.
    destruct Hx as [Hx | Hx].
    - rewrite forallb_forall in Hpre2. specialize (Hpre2 x Hx).
      apply orb_true_iff in Hpre2. destruct Hpre2 as [-> | ->];
        [reflexivity |].
      rewrite !orb_true_r. reflexivity.
    - rewrite forallb_forall in Hrest. rewrite (Hrest x Hx).
      destruct (is_digit x); reflexivity. }
  intros H. apply forallb_forall. intros x Hx.
  rewrite Ht in Hx. apply in_app_or in Hx.
  destruct Hx as [Hx | Hx]; [auto |].
  destruct s1 as [| c r]; [destruct Hx |].
  destruct (c =? 0x2b) eqn:Hplus.
  - destruct Hx as [<- | Hx].
    + unfold score_char. rewrite Hplus, !orb_true_r. reflexivity.
    + exact (Hbody 1%Z r H x Hx).
  - destruct (c =? 0x2d) eqn:Hminus.
    + destruct Hx as [<- | Hx].
      * unfold score_char. rewrite Hminus, !orb_true_r. reflexivity.
      * exact (Hbody (-1)%Z r H x Hx).
    + exact (Hbody 1%Z (c :: r) H x Hx).
Qed.

Lemma score_char_question : score_char 0x3f = false.
Proof. reflexivity. Qed.

(** A character below 127 that is not a score character survives the
    transformation, or a question mark stands in the buffer. *)
Lemma transform_keeps_foreign (s : pystr) (c : char) :
  In c s -> c < 127 -> score_char c = false ->
  exists c', In c' (transform_decimal_and_space s) /\ score_char c' = false.
Proof.
  intros Hin Hlt Hc. unfold transform_decimal_and_space.
  destruct (forallb (fun c => c <? 128) s); [exists c; auto |].
  induction s as [| x s IH]; [destruct Hin |].
  simpl. destruct (x <? 127) eqn:Hx.
  - destruct Hin as [-> | Hin]; [exists c; simpl; auto |].
    destruct (IH Hin) as (c' & Hc' & Hs). exists c'. simpl. auto.
  - destruct Hin as [-> | Hin].
    { apply N.ltb_ge in Hx. lia. }
    destruct (isspace x).
    + destruct (IH Hin) as (c' & Hc' & Hs). exists c'. simpl. auto.
    + destruct (todecimal x).
      * destruct (IH Hin) as (c' & Hc' & Hs). exists c'. simpl. auto.
      * exists 0x3f. simpl. auto.
Qed.

(** X5. A reply that is empty or holds white space only is rejected:
    reading it raises the [ValueError] of [int]. *)
Theorem blank_reply_is_rejected :
  forall (ws : pystr),
    forallb isspace ws = true ->
    strip ws = [] /\ parse_score (Some ws) = inl ValueError_int.
Proof.
  intros ws H.
  assert (Hs : strip ws = []).
  { unfold strip, lstrip. rewrite (dropwhile_all_nil _ _ H). reflexivity. }
  split; [exact Hs |]. unfold parse_score. rewrite Hs. reflexivity.
Qed.

Lemma blank_reply_is_rejected_witness :
  parse_score (Some []) = inl ValueError_int /\
  parse_score (Some (str " " ++ [nl])) = inl ValueError_int.
Proof.
  split.
  - exact (proj2 (blank_reply_is_rejected [] eq_refl)).
  - exact (proj2 (blank_reply_is_rejected (str " " ++ [nl]) eq_refl)).
Defined.

(** X6. A reply is rejected as soon as it holds one character below 127
    that is neither white space, a digit, a sign nor an underscore (a
    letter, a point, a slash, a colon, ...): whatever else the reply
    holds, reading it raises the [ValueError] of [int]. *)
Theorem foreign_character_is_rejected :
  forall (text : pystr) (c : char),
    In c text -> c < 127 -> isspace c = false -> score_char c = false ->
    parse_score (Some text) = inl ValueError_int.
Proof.
  intros text c Hin Hlt Hsp Hc. unfold parse_score.
  destruct (int (strip text)) as [v |] eqn:Hint; [| reflexivity].
  exfalso. unfold int in Hint.
  destruct (transform_keeps_foreign (strip text) c
              (In_strip _ _ Hin Hsp) Hlt Hc) as (c' & Hc' & Hs).
  apply long_from_string_chars in Hint.
  rewrite forallb_forall in Hint. rewrite (Hint c' Hc') in Hs. discriminate.
Qed.

Lemma foreign_character_is_rejected_witness :
  parse_score (Some (str "4.5")) = inl ValueError_int /\
  parse_score (Some (str "Score: 4")) = inl ValueError_int.
Proof.
  split.
  - apply (foreign_character_is_rejected (str "4.5") 0x2e);
      [right; left; reflexivity | reflexivity | reflexivity | reflexivity].
  - apply (foreign_character_is_rejected (str "Score: 4") 0x3a);
      [do 5 right; left; reflexivity | reflexivity | reflexivity
       | reflexivity].
Defined.

(** X14. White space put before and after a reply changes nothing:
    the stripped text is the same, and so is the score or the
    exception. *)
Theorem padding_does_not_change_the_score :
  forall (ws1 ws2 text : pystr),
    forallb isspace ws1 = true -> forallb isspace ws2 = true ->
    strip (ws1 ++ text ++ ws2) = strip text /\
    parse_score (Some (ws1 ++ text ++ ws2)) = parse_score (Some text).
Proof.
  intros ws1 ws2 text H1 H2.
  assert (Hs := strip_padding ws1 ws2 text H1 H2).
  split; [exact Hs |]. unfold parse_score. rewrite Hs. reflexivity.
Qed.

Lemma padding_does_not_change_the_score_witness :
  parse_score (Some ([nl] ++ str "N/A" ++ str "  "))
  = parse_score (Some (str "N/A")).
Proof.
  exact (proj2 (padding_does_not_change_the_score [nl] (str "  ") (str "N/A")
                  eq_refl eq_refl)).
Defined.

(** ** What a prompt tells *)

Lemma prompt_text_parts (c st d su m : pystr) :
  prompt_text c st d su m =
  prompt_head ++ c ++ steps_heading ++ st ++ source_heading ++ d
  ++ summary_heading ++ su ++ form_heading ++ m ++ [nl].
Proof.
  unfold prompt_text, prompt_head, steps_heading, source_heading,
    summary_heading, form_heading.
  cbn [join]. rewrite <- !List.app_assoc. reflexivity.
Qed.

(** X9. The prompt does not delimit the document from the summary: a
    document that ends with the heading of the summary section and a
    text [x] gives, with a summary [su], the very prompt that the
    document without them gives with the summary [x], that heading and
    [su]. *)
Theorem document_and_summary_run_together :
  forall (criteria steps document summary metric_name x : pystr),
    make_prompt criteria steps (document ++ summary_heading ++ x)
      summary metric_name
    = make_prompt criteria steps document
        (x ++ summary_heading ++ summary) metric_name /\
    make_request
      (prompt_text criteria steps (document ++ summary_heading ++ x)
         summary metric_name)
    = make_request
        (prompt_text criteria steps document
           (x ++ summary_heading ++ summary) metric_name).
Proof.
  intros c st d su m x.
  assert (H : prompt_text c st (d ++ summary_heading ++ x) su m =
              prompt_text c st d (x ++ summary_heading ++ su) m).
  { rewrite !prompt_text_parts, <- !List.app_assoc. reflexivity. }
  split; [rewrite !make_prompt_text | ]; rewrite H; reflexivity.
Qed.

Lemma make_request_inj (p1 p2 : pystr) :
  make_request p1 = make_request p2 -> p1 = p2.
Proof. unfold make_request. intros H. inversion H. reflexivity. Qed.

Lemma NoDup_map_eq {A B} (f : A -> B) (l : list A) (x y : A) :
  NoDup (map f l) -> In x l -> In y l -> f x = f y -> x = y.
Proof.
  induction l as [| a l IH]; intros Hnd Hx Hy Heq; [destruct Hx |].
  simpl in Hnd. inversion Hnd as [| b bs Hnotin Hnd']; subst.
  destruct Hx as [-> | Hx], Hy as [-> | Hy]; auto.
  - exfalso. apply Hnotin. rewrite Heq. apply in_map, Hy.
  - exfalso. apply Hnotin. rewrite <- Heq. apply in_map, Hx.
Qed.

(** The prompts of two jobs on one document agree only if the jobs
    have the same metric and the same summary text. *)
Lemma job_prompt_inj (source_text : pystr) (j1 j2 : Job) :
  In (fst j1) (items METRICS) -> In (fst j2) (items METRICS) ->
  job_request source_text j1 = job_request source_text j2 ->
  fst j1 = fst j2 /\ snd (snd j1) = snd (snd j2).
Proof.
  destruct j1 as [[m1 i1] [l1 t1]], j2 as [[m2 i2] [l2 t2]].
  unfold job_request, job_metric, items. cbn [fst snd].
  intros H1 H2 Heq. apply make_request_inj in Heq.
  rewrite !prompt_text_parts in Heq. apply List.app_inv_head in Heq.
  simpl in H1, H2.
  destruct H1 as [H1 | [H1 | [H1 | [H1 | []]]]];
    destruct H2 as [H2 | [H2 | [H2 | [H2 | []]]]];
    inversion H1; inversion H2; subst; cbn [criteria steps] in Heq;
    try (exfalso; vm_compute in Heq; discriminate Heq);
    (split; [reflexivity |]);
    do 6 apply List.app_inv_head in Heq;
    apply List.app_inv_tail in Heq; exact Heq.
Qed.

(** X10. Over a mapping whose summary texts are pairwise different, no
    request is sent twice in a run of [evaluate_summaries]: the request
    tells the metric and the summary text of its job. *)
Theorem no_request_is_sent_twice :
  forall (S : Type) (svc : Service S) (source_text : pystr)
         (summaries : dict pystr) (s : S),
    NoDup (values summaries) ->
    NoDup
      (map fst
         (exchanges (run svc (evaluate_summaries source_text summaries) s))).
Proof.
  intros S svc source_text summaries s Hvals.
  rewrite evaluate_summaries_exchanges.
  destruct (run_score_all_prefix svc source_text (jobs summaries)
              empty_data s) as (js1 & js2 & Hsplit & ->).
  assert (Hall : NoDup (map (job_request source_text) (jobs summaries))).
  { apply Finite.Injective_map_NoDup_in.
    - intros x y Hx Hy Heq. unfold jobs in Hx, Hy.
      destruct x as [mx sx], y as [my sy].
      apply in_prod_iff in Hx. apply in_prod_iff in Hy.
      destruct Hx as [Hmx Hsx], Hy as [Hmy Hsy].
      destruct (job_prompt_inj source_text (mx, sx) (my, sy) Hmx Hmy Heq)
        as [Hm Ht]. cbn [fst snd] in Hm, Ht. subst my. f_equal.
      apply (NoDup_map_eq snd summaries sx sy Hvals Hsx Hsy Ht).
    - unfold jobs. apply NoDup_list_prod.
      + apply (NoDup_map_inv fst). exact NoDup_keys_METRICS.
      + apply (NoDup_map_inv snd). exact Hvals. }
  rewrite Hsplit, List.map_app in Hall.
  apply NoDup_app_remove_r in Hall. exact Hall.
Qed.

Lemma no_request_is_sent_twice_witness :
  NoDup (values cat_summaries) /\
  NoDup
    (map fst
       (exchanges
          (run numbering (evaluate_summaries cat_document cat_summaries) 0))).
Proof.
  assert (H : NoDup (values cat_summaries)).
  { repeat constructor; simpl; intuition discriminate. }
  split; [exact H |].
  apply (no_request_is_sent_twice N numbering cat_document cat_summaries 0 H).
Defined.

(** ** The order of the axes *)

Lemma metric_column (summaries : dict pystr) :
  map job_metric (jobs summaries) =
  flat_map (fun m => repeat m (List.length summaries)) (keys METRICS).
Proof.
  unfold jobs, items, keys. generalize METRICS as ms.
  induction ms as [| m ms IH]; [reflexivity |].
  cbn [list_prod map flat_map]. rewrite List.map_app. f_equal; [| exact IH].
  rewrite List.map_map. exact (List.map_const (fst m) summaries).
Qed.

Lemma label_column (summaries : dict pystr) :
  map job_label (jobs summaries) =
  List.concat (repeat (keys summaries) (List.length METRICS)).
Proof.
  unfold jobs, items, keys. generalize METRICS as ms.
  induction ms as [| m ms IH]; [reflexivity |].
  cbn [list_prod List.length repeat List.concat]. rewrite List.map_app.
  f_equal; [| exact IH].
  rewrite List.map_map. reflexivity.
Qed.

Lemma nodup_block (m : pystr) (n : nat) (rest : list pystr) :
  ~ In m rest ->
  nodup pystr_eq_dec (repeat m (Datatypes.S n) ++ rest)
  = m :: nodup pystr_eq_dec rest.
Proof.
  intros Hnotin. induction n as [| n IH].
  - simpl. destruct (in_dec pystr_eq_dec m rest); [contradiction |].
    reflexivity.
  - change (repeat m (Datatypes.S (Datatypes.S n)) ++ rest)
      with (m :: (repeat m (Datatypes.S n) ++ rest)).
    cbn [nodup].
    destruct (in_dec pystr_eq_dec m (repeat m (Datatypes.S n) ++ rest))
      as [_ | Hno]; [exact IH |].
    exfalso. apply Hno. left. reflexivity.
Qed.

Lemma nodup_blocks (ks : list pystr) (n : nat) :
  NoDup ks ->
  nodup pystr_eq_dec (flat_map (fun m => repeat m (Datatypes.S n)) ks) = ks.
Proof.
  induction 1 as [| m ks Hnotin Hnd IH]; [reflexivity |].
  cbn [flat_map]. rewrite nodup_block; [rewrite IH; reflexivity |].
  intros Hin. apply in_flat_map in Hin. destruct Hin as (x & Hx & Hm).
  apply repeat_spec in Hm. subst. contradiction.
Qed.

Lemma nodup_absorb (l1 l2 : list pystr) :
  (forall x, In x l1 -> In x l2) ->
  nodup pystr_eq_dec (l1 ++ l2) = nodup pystr_eq_dec l2.
Proof.
  induction l1 as [| x l1 IH]; intros Hsub; [reflexivity |].
  cbn [app nodup].
  destruct (in_dec pystr_eq_dec x (l1 ++ l2)) as [_ | Hno].
  - apply IH. intros y Hy. apply Hsub. right. exact Hy.
  - exfalso. apply Hno. apply in_or_app. right. apply Hsub. left.
    reflexivity.
Qed.

Lemma nodup_copies (l : list pystr) (n : nat) :
  NoDup l ->
  nodup pystr_eq_dec (List.concat (repeat l (Datatypes.S n))) = l.
Proof.
  intros Hnd. induction n as [| n IH].
  - simpl. rewrite List.app_nil_r. apply nodup_fixed_point, Hnd.
  - change (List.concat (repeat l (Datatypes.S (Datatypes.S n))))
      with (l ++ List.concat (repeat l (Datatypes.S n))).
    rewrite nodup_absorb; [exact IH |].
    intros x Hx. simpl. apply in_or_app. left. exact Hx.
Qed.

Lemma leb_total (a b : pystr) : PyStr.leb a b = true \/ PyStr.leb b a = true.
Proof.
  revert b. induction a as [| x a IH]; intros [| y b]; simpl; auto.
  destruct (N.ltb_spec x y), (N.ltb_spec y x); auto; lia.
Qed.

Lemma HdRel_all (a : pystr) (l : list pystr) :
  (forall x, In x l -> le_str a x) -> HdRel le_str a l.
Proof.
  destruct l as [| y l]; constructor. apply H. left. reflexivity.
Qed.

Lemma insert_sorted_Sorted (x : pystr) (l : list pystr) :
  Sorted le_str l -> Sorted le_str (insert_sorted x l).
Proof.
  induction 1 as [| y l Hs IH Hhd]; simpl.
  - repeat constructor.
  - destruct (PyStr.leb x y) eqn:Hxy.
    + constructor; [constructor; assumption | constructor; exact Hxy].
    + constructor; [exact IH |].
      destruct l as [| z l]; simpl.
      * constructor. destruct (leb_total x y); [congruence | assumption].
      * destruct (PyStr.leb x z).
        -- constructor. destruct (leb_total x y); [congruence | assumption].
        -- inversion Hhd; subst. constructor. assumption.
Qed.

Lemma sorted_Sorted (l : list pystr) : Sorted le_str (sorted l).
Proof.
  induction l as [| x l IH]; simpl; [constructor |].
  apply insert_sorted_Sorted, IH.
Qed.

Lemma sorted_fixed (l : list pystr) : Sorted le_str l -> sorted l = l.
Proof.
  induction 1 as [| x l Hs IH Hhd]; simpl; [reflexivity |].
  rewrite IH. destruct Hhd as [| y l Hxy]; simpl; [reflexivity |].
  unfold le_str in Hxy. rewrite Hxy. reflexivity.
Qed.

Lemma rows_of_metric_column (js : list Job) (vs : list Z) :
  List.length vs = List.length js ->
  map row_metric (rows_of js vs) = map job_metric js.
Proof.
  intros Hlen. apply rows_of_keys in Hlen.
  apply (f_equal (map fst)) in Hlen. rewrite !List.map_map in Hlen.
  exact Hlen.
Qed.

Lemma rows_of_label_column (js : list Job) (vs : list Z) :
  List.length vs = List.length js ->
  map row_summary (rows_of js vs) = map job_label js.
Proof.
  intros Hlen. apply rows_of_keys in Hlen.
  apply (f_equal (map snd)) in Hlen. rewrite !List.map_map in Hlen.
  exact Hlen.
Qed.

(** The axes of a report, as lists. *)
Lemma build_report_axes {S} (svc : Service S) source_text summaries s p :
  wf summaries ->
  outcome (run svc (build_report source_text summaries) s) = inr p ->
  index p = axis (map job_metric (jobs summaries)) /\
  columns p = sorted (keys summaries).
Proof.
  intros Hwf.
  destruct (run svc (build_report source_text summaries) s)
    as [[s' log] out] eqn:Hrun.
  unfold outcome. simpl. intros ->.
  apply build_report_ok in Hrun.
  destruct Hrun as (_ & vs & _ & Hlen & Hp).
  unfold pivot in Hp.
  destruct (has_duplicate (map row_key (rows_of (jobs summaries) vs)));
    [discriminate |].
  inversion Hp; subst p; clear Hp. cbn [index columns].
  rewrite rows_of_metric_column, rows_of_label_column by exact Hlen.
  split; [reflexivity |].
  unfold axis. rewrite label_column.
  change (List.length METRICS) with 4%nat.
  rewrite nodup_copies by exact Hwf. reflexivity.
Qed.

(** X8. The rows of a report are not in the order of the catalogue but
    in the order of the metric names: Coherence, Consistency, Fluency,
    Relevance; and its columns are the labels of the mapping in
    increasing order, not in the order of the mapping. *)
Theorem report_axes_are_sorted :
  forall (S : Type) (svc : Service S) (source_text : pystr)
         (summaries : dict pystr) (s : S) (p : Pivot),
    wf summaries -> summaries <> [] ->
    outcome (run svc (build_report source_text summaries) s) = inr p ->
    index p =
      [str "Coherence"; str "Consistency"; str "Fluency"; str "Relevance"] /\
    columns p = sorted (keys summaries) /\
    Sorted le_str (columns p).
Proof.
  intros S svc source_text summaries s p Hwf Hne Hout.
  destruct (build_report_axes svc source_text summaries s p Hwf Hout)
    as [Hi Hc].
  split.
  - rewrite Hi, metric_column. unfold axis.
    destruct summaries as [| kv rest]; [congruence |].
    change (List.length (kv :: rest))
      with (Datatypes.S (List.length rest)).
    rewrite nodup_blocks by exact NoDup_keys_METRICS. reflexivity.
  - split; [exact Hc |]. rewrite Hc. apply sorted_Sorted.
Qed.

Lemma report_axes_are_sorted_witness :
  index numbered_report =
    [str "Coherence"; str "Consistency"; str "Fluency"; str "Relevance"] /\
  Sorted le_str (columns numbered_report).
Proof.
  destruct (report_axes_are_sorted N numbering cat_document cat_summaries 0
              numbered_report wf_cat_summaries ltac:(discriminate)
              ltac:(vm_compute; reflexivity)) as (Hi & _ & Hs).
  split; assumption.
Defined.

Lemma nonblank_keys_range (texts : list pystr) :
  forall i k, In k (keys (nonblank_from i texts)) ->
    exists j, (i <= j < i + List.length texts)%nat /\ k = summary_label j.
Proof.
  induction texts as [| t rest IH]; intros i k Hin; [destruct Hin |].
  simpl in Hin. destruct (truthy t).
  - destruct Hin as [<- | Hin].
    + exists i. split; [simpl; lia | reflexivity].
    + destruct (IH _ _ Hin) as (j & Hj & ->). exists j.
      split; [simpl; lia | reflexivity].
  - destruct (IH _ _ Hin) as (j & Hj & ->). exists j.
    split; [simpl; lia | reflexivity].
Qed.

(** Up to nine areas the labels grow with the areas. *)
Lemma summary_label_leb (i j : nat) :
  (i < j)%nat -> (j < 9)%nat ->
  PyStr.leb (summary_label i) (summary_label j) = true.
Proof.
  intros Hij Hj.
  do 9 (destruct j as [| j];
        [ do 9 (destruct i as [| i]; [first [reflexivity | lia] |]); lia |]).
  lia.
Qed.

Lemma nonblank_keys_Sorted (texts : list pystr) :
  forall k, (k + List.length texts <= 9)%nat ->
    Sorted le_str (keys (nonblank_from k texts)).
Proof.
  induction texts as [| t rest IH]; intros k Hk; simpl; [constructor |].
  simpl in Hk. destruct (truthy t); [| apply IH; lia].
  simpl. constructor; [apply IH; lia |].
  apply HdRel_all. intros x Hx.
  destruct (nonblank_keys_range _ _ _ Hx) as (j & Hj & ->).
  apply summary_label_leb; lia.
Qed.

Lemma collect_summaries_nonblank (texts : list pystr) :
  collect_summaries texts = nonblank_from 0 texts.
Proof.
  unfold collect_summaries. rewrite collect_from_nonblank; [reflexivity |].
  intros k [].
Qed.

(** X13. For a form of at most nine summary areas (the form allows
    five), the columns of the report are the labels of the non-blank
    areas in the order of the areas. *)
Theorem form_columns_follow_the_areas :
  forall (texts : list pystr),
    (List.length texts <= 9)%nat ->
    forall (S : Type) (svc : Service S) (s : S) (source_text : pystr)
           (p : Pivot),
      outcome
        (run svc (build_report source_text (collect_summaries texts)) s)
      = inr p ->
      columns p = keys (collect_summaries texts).
Proof.
  intros texts Hlen S svc s source_text p Hout.
  rewrite collect_summaries_nonblank in *.
  destruct (build_report_axes svc source_text _ s p (nonblank_wf texts 0) Hout)
    as [_ Hc].
  rewrite Hc. apply sorted_fixed, nonblank_keys_Sorted. simpl. exact Hlen.
Qed.

Lemma form_columns_follow_the_areas_witness :
  exists p,
    outcome
      (run numbering
         (build_report cat_document
            (collect_summaries [str "A cat sat."; []; str "A dog ran."])) 0)
    = inr p /\
    columns p = [str "Summary 1"; str "Summary 3"].
Proof.
  destruct (outcome
              (run numbering
                 (build_report cat_document
                    (collect_summaries
                       [str "A cat sat."; []; str "A dog ran."])) 0))
    as [e | p] eqn:Hout; [vm_compute in Hout; discriminate |].
  exists p. split; [reflexivity |].
  exact (form_columns_follow_the_areas
           [str "A cat sat."; []; str "A dog ran."] ltac:(simpl; lia)
           N numbering 0 cat_document p Hout).
Defined.

(** With ten areas the order of the labels is no longer that of the
    areas. *)
Lemma ten_areas_are_reordered :
  sorted (keys (collect_summaries (repeat (str "x") 10)))
  <> keys (collect_summaries (repeat (str "x") 10)).
Proof. vm_compute. discriminate. Qed.

(** ** Looking a summary up *)

Lemma get_absent {V} (d : dict V) (k : pystr) :
  ~ In k (keys d) -> get d k = None.
Proof.
  induction d as [| [k' v] d IH]; simpl; intros Hnotin; [reflexivity |].
  destruct (PyStr.eqb k' k) eqn:Heq.
  - apply eqb_eq in Heq. tauto.
  - apply IH. tauto.
Qed.

Lemma nonblank_get (texts : list pystr) :
  forall k i,
    get (nonblank_from k texts) (summary_label (k + i)) =
    match nth_error texts i with
    | Some t => if truthy t then Some t else None
    | None => None
    end.
Proof.
  induction texts as [| t rest IH]; intros k i.
  - destruct i; reflexivity.
  - destruct i as [| i].
    + rewrite Nat.add_0_r. simpl. destruct (truthy t).
      * simpl.
        assert (H : PyStr.eqb (summary_label k) (summary_label k) = true)
          by (apply eqb_eq; reflexivity).
        rewrite H. reflexivity.
      * apply get_absent. intros Hin.
        destruct (nonblank_keys _ _ _ Hin) as (j & Hj & Heq).
        apply summary_label_inj in Heq. lia.
    + replace (k + Datatypes.S i)%nat with (Datatypes.S k + i)%nat by lia.
      simpl. destruct (truthy t); [| exact (IH (Datatypes.S k) i)].
      simpl.
      destruct (PyStr.eqb (summary_label k)
                  (summary_label (Datatypes.S (k + i)))) eqn:Heq;
        [| exact (IH (Datatypes.S k) i)].
      apply eqb_eq, summary_label_inj in Heq. lia.
Qed.

(** X11. Looking the mapping of the form up: under the label of area
    [i] stands the text of area [i] when that text is not blank, and
    nothing when it is blank or when there is no such area; no text
    stands under the label of another area. *)
Theorem collected_summary_lookup :
  forall (texts : list pystr) (i : nat),
    get (collect_summaries texts) (summary_label i) =
    match nth_error texts i with
    | Some t => if truthy t then Some t else None
    | None => None
    end.
Proof.
  intros texts i. rewrite collect_summaries_nonblank.
  apply (nonblank_get texts 0 i).
Qed.

(** ** The detailed scores *)

Lemma combine_map_self {A B} (f : A -> B) (l : list A) :
  combine l (map f l) = map (fun x => (x, f x)) l.
Proof. induction l as [| a l IH]; simpl; [| rewrite IH]; reflexivity. Qed.

Lemma Forall2_In_left {A B} (R : A -> B -> Prop) (la : list A) (lb : list B)
    (a : A) :
  Forall2 R la lb -> In a la -> exists b, In b lb /\ R a b.
Proof.
  induction 1 as [| x y la lb Hxy H IH]; intros Hin; [destruct Hin |].
  destruct Hin as [-> | Hin].
  - exists y. split; [left; reflexivity | exact Hxy].
  - destruct (IH Hin) as (b & Hb & Hab). exists b. split; [right |]; auto.
Qed.

(** Reading a row of a pivot table at a label of its index. *)
Lemma loc_in_index (rows : list Row) (p : Pivot) (m : pystr) :
  pivot rows = inr p -> In m (index p) -> loc p m = inr (chart_of p m).
Proof.
  unfold pivot.
  destruct (has_duplicate (map row_key rows)); [discriminate |].
  intros Hp. inversion Hp; subst p; clear Hp.
  unfold loc, chart_of, lookup_cell. cbn [index columns cells]. intros Hm.
  rewrite (find_labelled
             (fun m => map (fun l => cell_of rows m l)
                         (axis (map row_summary rows))) _ _ Hm).
  rewrite combine_map_self. f_equal. apply map_ext_in. intros l Hl.
  rewrite <- (combine_map_self (fun x => cell_of rows m x)).
  rewrite (find_labelled (fun l => cell_of rows m l) _ _ Hl). reflexivity.
Qed.

Lemma detail_loop_all (p : Pivot) (ms : list (pystr * MetricInfo)) :
  (forall item, In item ms ->
     loc p (fst item) = inr (chart_of p (fst item)) /\
     get METRICS (fst item) = Some (snd item)) ->
  detail_loop p (map fst ms) = (flat_map (detail_of p) ms, None).
Proof.
  induction ms as [| item ms IH]; intros H; [reflexivity |].
  cbn [map detail_loop flat_map].
  destruct (H item (or_introl eq_refl)) as [-> ->].
  rewrite IH by (intros x Hx; apply H; right; exact Hx).
  reflexivity.
Qed.

(** X12. For the report of a well-formed, non-empty mapping the loop
    under "Detailed Scores" raises no [KeyError]: for each metric, in
    the order of the catalogue, it shows the name in bold, the bar
    chart of that metric's row of the table, column by column and with
    a score in every bar, and an expander with the metric's
    criteria. *)
Theorem detailed_scores_shows_every_metric :
  forall (S : Type) (svc : Service S) (source_text : pystr)
         (summaries : dict pystr) (s : S) (p : Pivot),
    wf summaries -> summaries <> [] ->
    outcome (run svc (build_report source_text summaries) s) = inr p ->
    detailed_scores p = (flat_map (detail_of p) (items METRICS), None) /\
    forall m, In m (keys METRICS) ->
      Forall (fun bar => snd bar <> None) (chart_of p m).
Proof.
  intros S svc source_text summaries s p Hwf Hne.
  destruct (run svc (build_report source_text summaries) s)
    as [[s' log] out] eqn:Hrun.
  unfold outcome. simpl. intros ->.
  apply build_report_ok in Hrun.
  destruct Hrun as (_ & vs & _ & Hlen & Hp).
  assert (Hkeys : map row_key (rows_of (jobs summaries) vs) =
                  list_prod (keys METRICS) (keys summaries))
    by (rewrite rows_of_keys by exact Hlen; apply job_keys_prod).
  assert (Hkne : keys summaries <> [])
    by (destruct summaries; [congruence | discriminate]).
  assert (Hmne : keys METRICS <> []) by discriminate.
  destruct (pivot_shape _ _ _ _ NoDup_keys_METRICS Hwf Hkne Hmne Hkeys Hp)
    as (Hpi & Hpc & _ & _).
  split.
  - unfold detailed_scores, keys, items. apply detail_loop_all.
    intros item Hitem. split.
    + apply (loc_in_index _ _ _ Hp).
      apply (Permutation_in _ (Permutation_sym Hpi)).
      apply in_map, Hitem.
    + simpl in Hitem.
      destruct Hitem as [<- | [<- | [<- | [<- | []]]]]; reflexivity.
  - intros m Hm. unfold chart_of. apply Forall_forall.
    intros bar Hbar. apply in_map_iff in Hbar.
    destruct Hbar as (l & <- & Hl). cbn [snd].
    apply (Permutation_in _ Hpc) in Hl.
    assert (Hj : In (m, l) (map job_key (jobs summaries)))
      by (rewrite job_keys_prod; apply in_prod_iff; split; assumption).
    apply in_map_iff in Hj. destruct Hj as (j & Hkey & Hj).
    destruct (Forall2_In_left _ _ _ j
                (pivot_cells_of_jobs _ _ _ Hlen Hp) Hj) as (v & _ & Hv).
    unfold job_key in Hkey. inversion Hkey; subst. rewrite Hv. discriminate.
Qed.

Lemma detailed_scores_shows_every_metric_witness :
  detailed_scores numbered_report
  = (flat_map (detail_of numbered_report) (items METRICS), None) /\
  chart_of numbered_report (str "Relevance")
  = [ (str "Summary 1", Some 1%Z); (str "Summary 2", Some 2%Z) ].
Proof.
  split; [| reflexivity].
  exact (proj1 (detailed_scores_shows_every_metric N numbering cat_document
                  cat_summaries 0 numbered_report wf_cat_summaries
                  ltac:(discriminate) ltac:(vm_compute; reflexivity))).
Defined.

(** ** What the labels do not change *)

Section Labels.

Context {S : Type} (svc : Service S).

(** Two passes whose jobs ask the same requests go the same way. *)
Lemma run_score_all_same_requests source_text (js1 : list Job) :
  forall js2 data1 data2 s,
    map (job_request source_text) js1 = map (job_request source_text) js2 ->
    Score data1 = Score data2 ->
    exchanges (run svc (score_all source_text js1 data1) s)
    = exchanges (run svc (score_all source_text js2 data2) s) /\
    final_state (run svc (score_all source_text js1 data1) s)
    = final_state (run svc (score_all source_text js2 data2) s) /\
    match outcome (run svc (score_all source_text js1 data1) s),
          outcome (run svc (score_all source_text js2 data2) s) with
    | inl e1, inl e2 => e1 = e2
    | inr d1, inr d2 => Score d1 = Score d2
    | _, _ => False
    end.
Proof.
  induction js1 as [| j1 js1 IH]; intros [| j2 js2] data1 data2 s Hreq Hsc;
    try discriminate.
  - repeat split. exact Hsc.
  - cbn [map] in Hreq.
    pose proof (f_equal (hd (job_request source_text j1)) Hreq) as Hhead.
    pose proof (f_equal (@tl _) Hreq) as Htail.
    cbn [hd tl] in Hhead, Htail. clear Hreq.
    rewrite !run_score_all_cons, !run_score_job. cbv zeta. rewrite Hhead.
    destruct (svc s (job_request source_text j2)) as [s1 [e | c]].
    + repeat split.
    + destruct (parse_score c) as [e | v].
      * repeat split.
      * match goal with
        | |- context [run svc (score_all source_text js1 ?d1) s1] =>
            match goal with
            | |- context [run svc (score_all source_text js2 ?d2) s1] =>
                specialize (IH js2 d1 d2 s1 Htail);
                destruct (run svc (score_all source_text js1 d1) s1)
                  as [[t1 log1] out1];
                destruct (run svc (score_all source_text js2 d2) s1)
                  as [[t2 log2] out2]
            end
        end.
        unfold exchanges, final_state, outcome in *. cbn [fst snd] in *.
        destruct IH as (Hlog & Hst & Hout);
          [simpl; rewrite Hsc; reflexivity |].
        rewrite Hlog. repeat split; assumption.
Qed.

End Labels.

Lemma job_requests_by_text (source_text : pystr) (summaries : dict pystr) :
  map (job_request source_text) (jobs summaries) =
  map (fun '(item, text) =>
         make_request
           (prompt_text (criteria (snd item)) (steps (snd item))
              source_text text (fst item)))
    (list_prod (items METRICS) (values summaries)).
Proof.
  unfold jobs, items, values. generalize METRICS as ms.
  induction ms as [| m ms IH]; [reflexivity |].
  cbn [list_prod]. rewrite !List.map_app. f_equal; [| exact IH].
  rewrite !List.map_map. reflexivity.
Qed.

(** X15. The labels of the summaries never reach the service and never
    change a score: two mappings that hold the same texts in the same
    order, under whatever labels, give the same exchanges, leave the
    service in the same state, and end with the same exception or with
    frames that have the same metric and score columns. *)
Theorem labels_do_not_matter :
  forall (S : Type) (svc : Service S) (source_text : pystr)
         (summaries1 summaries2 : dict pystr) (s : S),
    values summaries1 = values summaries2 ->
    let r1 := run svc (evaluate_summaries source_text summaries1) s in
    let r2 := run svc (evaluate_summaries source_text summaries2) s in
    exchanges r1 = exchanges r2 /\
    final_state r1 = final_state r2 /\
    same_scores (outcome r1) (outcome r2).
Proof.
  intros S svc source_text summaries1 summaries2 s Hvals r1 r2.
  assert (Hreq : map (job_request source_text) (jobs summaries1)
                 = map (job_request source_text) (jobs summaries2))
    by (rewrite !job_requests_by_text, Hvals; reflexivity).
  destruct (run_score_all_same_requests svc source_text (jobs summaries1)
              (jobs summaries2) empty_data empty_data s Hreq eq_refl)
    as (Hlog & Hst & Hout).
  assert (Hlen : List.length (jobs summaries1) = List.length (jobs summaries2)).
  { apply (f_equal (@List.length _)) in Hreq.
    rewrite !List.length_map in Hreq. exact Hreq. }
  assert (Hmet : map job_metric (jobs summaries1)
                 = map job_metric (jobs summaries2)).
  { rewrite !metric_column. f_equal.
    apply (f_equal (@List.length _)) in Hvals. unfold values in Hvals.
    rewrite !List.length_map in Hvals. rewrite Hvals. reflexivity. }
  subst r1 r2. rewrite !run_evaluate_summaries.
  destruct (run svc (score_all source_text (jobs summaries1) empty_data) s)
    as [[s1 log1] [e1 | d1]] eqn:Hrun1;
    destruct (run svc (score_all source_text (jobs summaries2) empty_data) s)
      as [[s2 log2] [e2 | d2]] eqn:Hrun2;
    unfold exchanges, final_state, outcome in *; cbn [fst snd] in *;
    try contradiction.
  - repeat split; assumption.
  - apply run_score_all_ok in Hrun1. apply run_score_all_ok in Hrun2.
    destruct Hrun1 as (He1 & Hs1 & Hreq1 & vs1 & Hv1 & Hsc1).
    destruct Hrun2 as (He2 & Hs2 & Hreq2 & vs2 & Hv2 & Hsc2).
    simpl in He1, Hs1, Hv1, He2, Hs2, Hv2.
    assert (Hl1 : List.length vs1 = List.length (jobs summaries1)).
    { pose proof (Forall2_length Hsc1) as H1.
      pose proof (f_equal (@List.length _) Hreq1) as H2.
      rewrite !List.length_map in H2.
      etransitivity; [symmetry; exact H1 | exact H2]. }
    assert (Hl2 : List.length vs2 = List.length (jobs summaries2)).
    { pose proof (Forall2_length Hsc2) as H1.
      pose proof (f_equal (@List.length _) Hreq2) as H2.
      rewrite !List.length_map in H2.
      etransitivity; [symmetry; exact H1 | exact H2]. }
    destruct d1 as [ev1 su1 sc1], d2 as [ev2 su2 sc2]. simpl in *.
    subst ev1 su1 sc1 ev2 su2 sc2.
    rewrite !DataFrame_rows_of by assumption.
    repeat split; try assumption.
    + rewrite !rows_of_metric_column by assumption. exact Hmet.
    + rewrite !rows_of_scores by assumption. exact Hout.
Qed.

Lemma labels_do_not_matter_witness :
  same_scores
    (outcome
       (run numbering (evaluate_summaries cat_document cat_summaries) 0))
    (outcome
       (run numbering
          (evaluate_summaries cat_document
             [ (str "first", str "A cat sat.");
               (str "second", str "A dog ran.") ]) 0)).
Proof.
  exact (proj2 (proj2 (labels_do_not_matter N numbering cat_document
                         cat_summaries
                         [ (str "first", str "A cat sat.");
                           (str "second", str "A dog ran.") ]
                         0 eq_refl))).
Defined.
